(** * taskproc: the cache layer and the future model

    A shallow embedding of [taskproc/database.py] ([IdTable],
    [InstanceDirectory], [Database]) and of [taskproc/future.py]
    ([MappedFuture], [Const]), with the properties of the fingerprint to
    instance-id table, of the on-disk layout and of projections.

    Conventions.
    - A [diskcache.Cache] and a Python [dict] are finite maps ([gmap]).
    - A fingerprint (argkey, [Json = NewType('Json', str)]) is a [string].
    - Code that may raise returns a [result]: [Ok v] or [Raise e]. *)

From Stdlib Require Import Ascii HexadecimalString.
From stdpp Require Import gmap strings list fin_maps pretty.

Set Default Proof Using "Type".

(** ** Exceptions *)

Inductive exn :=
  | AssertionError
  | TypeError
  | RuntimeError
  | FileNotFoundError
  | FileExistsError
  | NotADirectoryError
  | IsADirectoryError
  | OSError
  | KeyError
  | IndexError
  | SyntaxError
  | UserError (msg : string).

Inductive result (A : Type) :=
  | Ok (a : A)
  | Raise (e : exn).
Arguments Ok {A} a.
Arguments Raise {A} e.

(** [x ← r; k] runs [r] and hands its value to [k]; an exception of [r]
    leaves [k] unevaluated. *)
#[global] Instance result_ret : MRet result := λ A a, Ok a.
#[global] Instance result_bind : MBind result := λ A B k r,
  match r with
  | Ok a => k a
  | Raise e => Raise e
  end.

(** [c in s] for a character [c] *)
Fixpoint contains_char (c : Ascii.ascii) (s : string) : bool :=
  match s with
  | EmptyString => false
  | String c' s' => Ascii.eqb c' c || contains_char c s'
  end.

(** ** IdTable (database.py, class IdTable) *)

Module IdTable.

(** [self.table] is the persistent store, [self.cache] the dictionary
    of the running process.  [self.lock] is never taken (every use is
    commented out in the source). *)
Record t := mk {
  table : gmap string nat;
  cache : gmap string nat;
}.

(** [__init__]: opens the store found at the path, with an empty
    in-process cache. *)
Definition __init__ (stored : gmap string nat) : t :=
  {| table := stored; cache := ∅ |}.

(** [get]: a hit in [self.cache] returns at once; otherwise the store
    is read inside one transaction, a missing key is given
    [len(self.table)], and the outcome is remembered in [self.cache]. *)
Definition get (x : string) (self : t) : nat * t :=
  match cache self !! x with
  | Some out => (out, self)
  | None =>
      let '(value, table') :=
        match table self !! x with
        | Some value => (value, table self)
        | None =>
            let value := size (table self) in
            (value, <[x := value]> (table self))
        end in
      (value, {| table := table'; cache := <[x := value]> (cache self) |})
  end.

Definition __contains__ (key : string) (self : t) : bool :=
  bool_decide (is_Some (table self !! key)).

(** [clear]: [self.table.clear()] and nothing else. *)
Definition clear (self : t) : t :=
  {| table := ∅; cache := cache self |}.

(** Sequences of calls on one [IdTable] object. *)
Inductive op :=
  | Get (x : string)
  | Clear.

(** [run ops self] performs the calls in order and returns the list of
    [(key, id)] pairs that the [get] calls returned, oldest first, with
    the final state. *)
Fixpoint run (ops : list op) (self : t) : list (string * nat) * t :=
  match ops with
  | [] => ([], self)
  | Get x :: ops' =>
      let '(i, self') := get x self in
      let '(tr, self'') := run ops' self' in
      ((x, i) :: tr, self'')
  | Clear :: ops' => run ops' (clear self)
  end.

(** The ids handed out in a trace tell keys apart, and a key keeps
    its id. *)
Definition ids_injective (tr : list (string * nat)) : Prop :=
  ∀ k1 k2 i1 i2, (k1, i1) ∈ tr → (k2, i2) ∈ tr → (i1 = i2 ↔ k1 = k2).

(** The state of a table on which [clear] has not been called since
    the object was made: what the process remembers is in the store,
    the store numbers its keys 0 .. size-1 without repetition. *)
Record consistent (self : t) : Prop := {
  cache_sub : cache self ⊆ table self;
  ids_below : ∀ k i, table self !! k = Some i → i < size (table self);
  ids_inj : ∀ k1 k2 i, table self !! k1 = Some i → table self !! k2 = Some i → k1 = k2;
}.

(** Every id given at a first sighting is above the ids already in
    the store and above every id returned earlier in the trace. *)
Definition ids_monotone (known : gmap string nat) (tr : list (string * nat)) : Prop :=
  ∀ q k2 i2,
    tr !! q = Some (k2, i2) →
    known !! k2 = None →
    (∀ r i, r < q → tr !! r ≠ Some (k2, i)) →
    (∀ k i, known !! k = Some i → i < i2) ∧
    (∀ p k1 i1, p < q → tr !! p = Some (k1, i1) → i1 < i2).

(** The ids in the store leave no gap below its size. *)
Definition dense (self : t) : Prop :=
  ∀ i, i < size (table self) → ∃ k, table self !! k = Some i.

End IdTable.


(** ** Futures (future.py) *)

Module Futures.
Section model.

(** Python objects and the primitives of the language that future.py
    relies on.  They are parameters: the results of tasks are arbitrary
    picklable objects. *)
Context {pyobj : Type}.
(** [isinstance(key, (int, float, str, bool, type(None)))] *)
Variable isinstance_json_key : pyobj → bool.
(** [out[k]] *)
Variable subscript : pyobj → pyobj → result pyobj.
(** list, bool and str objects *)
Variable py_list : list pyobj → pyobj.
Variable py_bool : bool → pyobj.
Variable py_str : string → pyobj.
(** [repr(x)], [eval(s, {}, {})] and the truth value of [x == y],
    which [__eq__] or [__bool__] may refuse to give *)
Variable repr : pyobj → string.
Variable eval : string → result pyobj.
Variable py_eq : pyobj → pyobj → result bool.

(** User tasks (task.py): only their [Future] methods are used here. *)
Context {task : Type}.
Variable task_run_task : task → result pyobj.
Variable task_get_task_result : task → result pyobj.
Variable task_to_json : task → gmap string pyobj.

(** [JsonDict]: a dict with string keys. *)
#[local] Abbreviation JsonDict := (gmap string pyobj).

(** [Const]: a frozen dataclass with the one field [value]. *)
Record Const := { value : pyobj }.

(** A future is a [MappedFuture] or it is not; [Origin] is the type of
    those that are not. *)
Inductive Origin :=
  | OTask (t : task)
  | OConst (c : Const).

Inductive Future :=
  | Base (o : Origin)
  | MappedFuture (task : Future) (key : pyobj).

(** The [try] covers the evaluation only; the comparison is made
    after it. *)
Definition _check_if_literal (x : pyobj) : result bool :=
  match eval (repr x) with
  | Raise _ => Ok false
  | Ok xx => py_eq x xx
  end.

(** [Const(v)]: the generated [__init__] stores the field, then
    [__post_init__] asserts [_check_if_literal(self.value)]. *)
Definition Const_new (v : pyobj) : result Const :=
  let self := {| value := v |} in
  match _check_if_literal (value self) with
  | Ok true => Ok self
  | Ok false => Raise AssertionError
  | Raise e => Raise e
  end.

Definition Const_run_task (self : Const) : result pyobj := Ok (value self).
Definition Const_get_task_result (self : Const) : result pyobj := Ok (value self).
Definition Const_to_json (self : Const) : JsonDict :=
  {[ "__const__" := py_bool true; "__repr__" := py_str (repr (value self)) ]}.

(** Method dispatch on a future that is not a projection. *)
Definition Origin_run_task (o : Origin) : result pyobj :=
  match o with
  | OTask t => task_run_task t
  | OConst c => Const_run_task c
  end.
Definition Origin_get_task_result (o : Origin) : result pyobj :=
  match o with
  | OTask t => task_get_task_result t
  | OConst c => Const_get_task_result c
  end.
Definition Origin_to_json (o : Origin) : JsonDict :=
  match o with
  | OTask t => task_to_json t
  | OConst c => Const_to_json c
  end.

(** [FutureMapperMixin.__getitem__].  The message of the assertion is
    built with [repr(key)], taken here to return as everywhere in this
    model. *)
Definition __getitem__ (self : Future) (key : pyobj) : result Future :=
  if isinstance_json_key key then Ok (MappedFuture self key)
  else Raise AssertionError.

(** [MappedFuture.get_origin]: [x = self.task], then [x.get_origin()]
    when [x] is a [MappedFuture] and [x] itself otherwise.  The case
    [Base o] is that second branch: a future that is no projection is its
    own origin. *)
Fixpoint get_origin (self : Future) : Origin :=
  match self with
  | Base o => o
  | MappedFuture x _ => get_origin x
  end.

(** [MappedFuture.get_args]: the while loop appends [x.key] and moves
    to [x.task]; the list is returned reversed. *)
Fixpoint get_args_loop (x : Future) (out : list pyobj) : list pyobj :=
  match x with
  | MappedFuture task key => get_args_loop task (out ++ [key])
  | Base _ => out
  end.
Definition get_args (self : Future) : list pyobj :=
  rev (get_args_loop self []).

(** [for k in ks: out = out[k]] *)
Fixpoint subscripts (out : pyobj) (ks : list pyobj) : result pyobj :=
  match ks with
  | [] => Ok out
  | k :: ks' => out' ← subscript out k; subscripts out' ks'
  end.

Definition MappedFuture_run_task (self : Future) : result pyobj :=
  Raise TypeError.
Definition MappedFuture_get_task_result (self : Future) : result pyobj :=
  out ← Origin_get_task_result (get_origin self);
  subscripts out (get_args self).
(** [out['__key__'] = self.get_args()] sets the key in the dict that
    the origin's [to_json()] returned. *)
Definition MappedFuture_to_json (self : Future) : JsonDict :=
  let out := Origin_to_json (get_origin self) in
  <["__key__" := py_list (get_args self)]> out.

(** The three methods of the [Future] protocol. *)
Definition run_task (self : Future) : result pyobj :=
  match self with
  | Base o => Origin_run_task o
  | MappedFuture _ _ => MappedFuture_run_task self
  end.
Definition get_task_result (self : Future) : result pyobj :=
  match self with
  | Base o => Origin_get_task_result o
  | MappedFuture _ _ => MappedFuture_get_task_result self
  end.
Definition to_json (self : Future) : JsonDict :=
  match self with
  | Base o => Origin_to_json o
  | MappedFuture _ _ => MappedFuture_to_json self
  end.

(** The expression [v[k1]...[kn]] as it is written: every key indexes
    the value of the expression to its left.  [r] is what evaluating [v]
    gave, a value or an exception; nothing is indexed after an
    exception. *)
Definition index_nested (r : result pyobj) (ks : list pyobj) : result pyobj :=
  foldl (λ left k, match left with
                   | Ok v => subscript v k
                   | Raise e => Raise e
                   end) r ks.

(** [f[k1]...[kn]] *)
Fixpoint project (f : Future) (ks : list pyobj) : result Future :=
  match ks with
  | [] => Ok f
  | k :: ks' => f' ← __getitem__ f k; project f' ks'
  end.

End model.
End Futures.

(** ** Two fragments of Python's objects, to run the model on *)

(** JSON-shaped values: what a task such as [MultiResultTask] of the
    tests returns, and the keys that index into it. *)
Module PyJson.

#[local] Unset Elimination Schemes.
Inductive json :=
  | JNone
  | JBool (b : bool)
  | JInt (z : Z)
  | JStr (s : string)
  | JList (l : list json)
  | JDict (items : list (string * json)).
#[local] Set Elimination Schemes.

Definition isinstance_json_key (key : json) : bool :=
  match key with
  | JNone | JBool _ | JInt _ | JStr _ => true
  | JList _ | JDict _ => false
  end.

(** [seq[i]] for an int [i]: negative indices count from the end. *)
Definition index_of (len : nat) (i : Z) : result nat :=
  let j := if (i <? 0)%Z then (i + Z.of_nat len)%Z else i in
  if ((0 <=? j) && (j <? Z.of_nat len))%Z then Ok (Z.to_nat j)
  else Raise IndexError.

Definition int_of_key (key : json) : option Z :=
  match key with
  | JInt z => Some z
  | JBool b => Some (if b then 1 else 0)%Z
  | _ => None
  end.

Fixpoint dict_lookup (items : list (string * json)) (k : string) : option json :=
  match items with
  | [] => None
  | (k', v) :: items' => if String.eqb k' k then Some v else dict_lookup items' k
  end.

(** [out[k]].  A bool is an int for list and str indexing; a list or
    dict key is unhashable; dict keys are strings here, so no other key
    is found. *)
Definition subscript (out key : json) : result json :=
  match out with
  | JList l =>
      match int_of_key key with
      | Some i =>
          j ← index_of (length l) i;
          match l !! j with Some v => Ok v | None => Raise IndexError end
      | None => Raise TypeError
      end
  | JStr s =>
      match int_of_key key with
      | Some i =>
          j ← index_of (String.length s) i;
          match String.get j s with
          | Some c => Ok (JStr (String c ""))
          | None => Raise IndexError
          end
      | None => Raise TypeError
      end
  | JDict items =>
      match key with
      | JList _ | JDict _ => Raise TypeError
      | JStr k =>
          match dict_lookup items k with
          | Some v => Ok v
          | None => Raise KeyError
          end
      | _ => Raise KeyError
      end
  | JNone | JBool _ | JInt _ => Raise TypeError
  end.

Definition double_quote : Ascii.ascii := Ascii.ascii_of_nat 34.

Definition hex2 (n : N) : string :=
  let h := HexadecimalString.NilZero.string_of_uint (N.to_hex_uint n) in
  if (n <? 16)%N then "0" +:+ h else h.

Fixpoint escape (quote : Ascii.ascii) (s : string) : string :=
  match s with
  | EmptyString => EmptyString
  | String c s' =>
      let n := Ascii.N_of_ascii c in
      (if Ascii.eqb c quote || Ascii.eqb c "\"%char
       then String "\"%char (String c "")
       else if (n =? 9)%N then "\t"
       else if (n =? 10)%N then "\n"
       else if (n =? 13)%N then "\r"
       else if ((n <? 32) || (n =? 127))%N then "\x" +:+ hex2 n
       else String c "") +:+ escape quote s'
  end.

(** [repr] of a str of ASCII characters: single quotes, unless the
    text has a single quote and no double quote. *)
Definition repr_str (s : string) : string :=
  let quote :=
    if contains_char "'"%char s && negb (contains_char double_quote s)
    then double_quote else "'"%char in
  String quote (escape quote s +:+ String quote "").

Fixpoint repr (v : json) : string :=
  match v with
  | JNone => "None"
  | JBool b => if b then "True" else "False"
  | JInt z => pretty z
  | JStr s => repr_str s
  | JList l =>
      "[" +:+
      (fix items l :=
         match l with
         | [] => ""
         | x :: l' =>
             repr x +:+ match l' with [] => "" | _ => ", " +:+ items l' end
         end) l +:+ "]"
  | JDict d =>
      "{" +:+
      (fix items d :=
         match d with
         | [] => ""
         | (k, x) :: d' =>
             repr_str k +:+ ": " +:+ repr x +:+
             match d' with [] => "" | _ => ", " +:+ items d' end
         end) d +:+ "}"
  end.

(** The tasks of [test_mapping], by class name: what the cache holds
    for them and their reference objects. *)
Definition task_get_task_result (t : string) : result json :=
  if String.eqb t "MultiResultTask"
  then Ok (JDict [("hello", JList [JStr "world"; JStr "42"])])
  else Raise FileNotFoundError.

Definition task_to_json (t : string) : gmap string json :=
  {[ "__task__" := JStr t; "__args__" := JDict [] ]}.

End PyJson.

(** Atoms: [None], bools, ints and plain [object()] instances, with
    [repr], [eval] on the strings [repr] produces, and [==]. *)
Module PyAtom.

Inductive atom :=
  | ANone
  | ABool (b : bool)
  | AInt (z : Z)
  | AObject (addr : N).

Definition repr (x : atom) : string :=
  match x with
  | ANone => "None"
  | ABool b => if b then "True" else "False"
  | AInt z => pretty z
  | AObject addr =>
      "<object object at 0x" +:+
      HexadecimalString.NilZero.string_of_uint (N.to_hex_uint addr) +:+ ">"
  end.

Definition digit_of (c : Ascii.ascii) : option Z :=
  let n := Z.of_N (Ascii.N_of_ascii c) in
  if ((48 <=? n) && (n <=? 57))%Z then Some (n - 48)%Z else None.

Fixpoint parse_digits (s : string) (acc : Z) : option Z :=
  match s with
  | EmptyString => Some acc
  | String c s' =>
      match digit_of c with
      | Some d => parse_digits s' (acc * 10 + d)%Z
      | None => None
      end
  end.

(** A decimal literal: digits, with no leading zero before others. *)
Definition parse_decimal (s : string) : option Z :=
  match s with
  | EmptyString => None
  | String c s' =>
      if Ascii.eqb c "0"%char
      then (if String.eqb s' "" then Some 0%Z else None)
      else parse_digits s 0
  end.

Definition parse_int (s : string) : option Z :=
  match s with
  | String c s' =>
      if Ascii.eqb c "-"%char then Z.opp <$> parse_decimal s'
      else parse_decimal s
  | EmptyString => None
  end.

(** [eval(s, {}, {})] for [s] a name constant or an int literal; the
    [repr] of an [object()] is not an expression. *)
Definition eval (s : string) : result atom :=
  if String.eqb s "None" then Ok ANone
  else if String.eqb s "True" then Ok (ABool true)
  else if String.eqb s "False" then Ok (ABool false)
  else match parse_int s with
       | Some z => Ok (AInt z)
       | None => Raise SyntaxError
       end.

Definition int_value (x : atom) : option Z :=
  match x with
  | AInt z => Some z
  | ABool b => Some (if b then 1 else 0)%Z
  | _ => None
  end.

(** [x == y]: numbers (bools included) by value, [None] with [None],
    objects by identity. *)
Definition py_eq (x y : atom) : result bool :=
  Ok match int_value x, int_value y with
     | Some a, Some b => (a =? b)%Z
     | None, None =>
         match x, y with
         | ANone, ANone => true
         | AObject a, AObject b => (a =? b)%N
         | _, _ => false
         end
     | _, _ => false
     end.

(** No atom can be indexed. *)
Definition subscript_none (out key : atom) : result atom := Raise TypeError.

End PyAtom.

(** ** The file system, as pathlib, shutil and open see it *)

Module FS.

(** An absolute path is the list of its components below the root.
    Paths are physical: an entry is found under the directories that
    hold it, not through a link to one of them. *)
Abbreviation Path := (list string).

(** Directories, regular files with their text and modification time
    (ns), and symbolic links to an absolute path.  The times of
    directories are not tracked. *)
Inductive node :=
  | Dir
  | File (content : string) (mtime : Z)
  | Symlink (target : Path).

#[global] Instance node_eq_dec : EqDecision node.
Proof. solve_decision. Defined.

Abbreviation t := (gmap (list string) node).

(** *** Pure paths *)

(** [s.split('/')], with [cur] the component being read. *)
Fixpoint split_slash (s : string) (cur : string) : list string :=
  match s with
  | EmptyString => [cur]
  | String c s' =>
      if Ascii.eqb c "/"%char then cur :: split_slash s' ""
      else split_slash s' (cur +:+ String c "")
  end.

(** The components of a path string: empty ones and "." are dropped. *)
Definition parts (name : string) : list string :=
  List.filter (λ c, negb (String.eqb c "") && negb (String.eqb c "."))
              (split_slash name "").

Definition is_absolute (name : string) : bool :=
  match name with
  | String c _ => Ascii.eqb c "/"%char
  | EmptyString => false
  end.

(** [p / name]: an absolute [name] replaces [p]. *)
Definition joinpath (p : Path) (name : string) : Path :=
  if is_absolute name then parts name else p ++ parts name.

(** A name that is one ordinary path component. *)
Definition is_component (name : string) : bool :=
  negb (String.eqb name "") && negb (String.eqb name ".") &&
  negb (String.eqb name "..") && negb (contains_char "/"%char name).

(** [p.parent] *)
Definition parent (p : Path) : Path := removelast p.

(** Every entry below the root sits in a directory. *)
Definition wf (fs : t) : Prop :=
  map_Forall (λ p _, p = [] ∨ fs !! parent p = Some Dir) fs.

#[global] Instance wf_dec fs : Decision (wf fs).
Proof. unfold wf. apply _. Defined.

(** Two file systems that differ at most at [P] and below it. *)
Definition agree_outside (P : Path) (fs1 fs2 : t) : Prop :=
  ∀ p, ¬ P `prefix_of` p → fs1 !! p = fs2 !! p.

(** [graft P u fs] is [fs] with the entries of [u], whose paths are
    relative to [P], put below [P]. *)
Definition graft (P : Path) (u : t) (fs : t) : t := kmap (app P) u ∪ fs.

(** A string of decimal digits. *)
Fixpoint all_digits (s : string) : bool :=
  match s with
  | EmptyString => true
  | String c s' =>
      let n := Ascii.N_of_ascii c in
      ((48 <=? n) && (n <=? 57))%N && all_digits s'
  end.

(** *** Queries *)

(** Follows the symbolic links at [p] itself; [None] after too many
    levels (ELOOP). *)
Fixpoint follow (fuel : nat) (fs : t) (p : Path) : option Path :=
  match fs !! p with
  | Some (Symlink target) =>
      match fuel with
      | 0 => None
      | S fuel' => follow fuel' fs target
      end
  | _ => Some p
  end.

Definition MAXSYMLINKS : nat := 40.

(** [Path.exists()] ([exists] is a keyword here): follows links; a
    dangling link or a loop gives [False]. *)
Definition exists_ (fs : t) (p : Path) : bool :=
  match follow MAXSYMLINKS fs p with
  | Some q => bool_decide (is_Some (fs !! q))
  | None => false
  end.

(** [path.stat().st_mtime_ns], for files. *)
Definition st_mtime_ns (fs : t) (p : Path) : result Z :=
  match follow MAXSYMLINKS fs p with
  | Some q =>
      match fs !! q with
      | Some (File _ mtime) => Ok mtime
      | Some _ => Raise OSError
      | None => Raise FileNotFoundError
      end
  | None => Raise OSError
  end.

(** The content of the file at [p], as it is stored. *)
Definition read_text (fs : t) (p : Path) : result string :=
  match follow MAXSYMLINKS fs p with
  | Some q =>
      match fs !! q with
      | Some (File content _) => Ok content
      | Some _ => Raise IsADirectoryError
      | None => Raise FileNotFoundError
      end
  | None => Raise OSError
  end.

(** Reading in text mode translates line ends: a carriage return
    becomes a line feed, and a line feed that follows a carriage return is
    dropped with it.  [after_cr] tells that the previous character was a
    carriage return. *)
Fixpoint universal_newlines (after_cr : bool) (s : string) : string :=
  match s with
  | EmptyString => EmptyString
  | String c s' =>
      if Ascii.eqb c "013"%char
      then String "010"%char (universal_newlines true s')
      else if Ascii.eqb c "010"%char && after_cr
      then universal_newlines false s'
      else String c (universal_newlines false s')
  end.

(** [open(p, 'r').read()] *)
Definition read_text_mode (fs : t) (p : Path) : result string :=
  content ← read_text fs p; Ok (universal_newlines false content).

(** *** Updates; [now] is the clock reading stamped on written files *)

(** The directory an entry at [q] would be made in must be there. *)
Definition check_parent (fs : t) (q : Path) : result unit :=
  match fs !! parent q with
  | Some Dir => Ok ()
  | Some _ => Raise NotADirectoryError
  | None => Raise FileNotFoundError
  end.

(** [Path.mkdir()] with [parents=False, exist_ok=False] *)
Definition mkdir (p : Path) (fs : t) : result t :=
  match fs !! p with
  | Some _ => Raise FileExistsError
  | None => _ ← check_parent fs p; Ok (<[p := Dir]> fs)
  end.

(** [Path.mkdir(exist_ok=True)]: FileExistsError is swallowed when the
    path is a directory. *)
Definition mkdir_exist_ok (p : Path) (fs : t) : result t :=
  match mkdir p fs with
  | Raise FileExistsError =>
      match follow MAXSYMLINKS fs p with
      | Some q =>
          match fs !! q with
          | Some Dir => Ok fs
          | _ => Raise FileExistsError
          end
      | None => Raise FileExistsError
      end
  | r => r
  end.

(** [shutil.rmtree(p)]: [p] must be a real directory; it goes with
    all that is below it. *)
Definition rmtree (p : Path) (fs : t) : result t :=
  match fs !! p with
  | Some Dir => Ok (filter (λ kv, ¬ p `prefix_of` kv.1) fs)
  | Some (File _ _) => Raise NotADirectoryError
  | Some (Symlink _) => Raise OSError
  | None => Raise FileNotFoundError
  end.

(** [with open(p, 'w') as ref: ref.write(content)] *)
Definition write_text (p : Path) (content : string) (now : Z) (fs : t) : result t :=
  match follow MAXSYMLINKS fs p with
  | Some q =>
      match fs !! q with
      | Some Dir => Raise IsADirectoryError
      | _ => _ ← check_parent fs q; Ok (<[q := File content now]> fs)
      end
  | None => Raise OSError
  end.

(** [Path.touch()]: an existing file gets a new time, a missing one is
    made empty. *)
Definition touch (p : Path) (now : Z) (fs : t) : result t :=
  match follow MAXSYMLINKS fs p with
  | Some q =>
      match fs !! q with
      | Some (File content _) => Ok (<[q := File content now]> fs)
      | Some _ => Ok fs
      | None => _ ← check_parent fs q; Ok (<[q := File "" now]> fs)
      end
  | None => Raise OSError
  end.

(** [link.symlink_to(target)] *)
Definition symlink_to (link target : Path) (fs : t) : result t :=
  match fs !! link with
  | Some _ => Raise FileExistsError
  | None => _ ← check_parent fs link; Ok (<[link := Symlink target]> fs)
  end.

End FS.

(** [_get_timestamp]: the modification time of the file, in ns (the
    conversion to a [datetime] is left out). *)
Definition _get_timestamp (fs : FS.t) (path : FS.Path) : result Z :=
  FS.st_mtime_ns fs path.

(** ** InstanceDirectory (database.py) *)

Module InstanceDirectory.
Import FS.

Record t := mk {
  base_path : Path;
  task_id : nat;
  argkey : string;
  dependencies : gmap string Path;
  compress_level : Z;
}.

Definition path (self : t) : Path :=
  joinpath (base_path self) (pretty (task_id self)).
Definition args_path (self : t) : Path := joinpath (path self) "args.json".
Definition result_path (self : t) : Path := joinpath (path self) "result.pkl.gz".
Definition stdout_path (self : t) : Path := joinpath (path self) "stdout.txt".
Definition stderr_path (self : t) : Path := joinpath (path self) "stderr.txt".
Definition data_dir (self : t) : Path := joinpath (path self) "data".
Definition deps_dir (self : t) : Path := joinpath (path self) "deps".

Section ops.
(** [Path.resolve()]: the absolute, link-free form a path has in a
    given file system. *)
Variable resolve : FS.t → Path → Path.

(** The loop over [self.dependencies.items()]. *)
Fixpoint link_dependencies (deps_dir : Path) (items : list (string * Path))
    (fs : FS.t) : result FS.t :=
  match items with
  | [] => Ok fs
  | (name, target) :: items' =>
      let link_path := joinpath deps_dir name in
      fs' ← symlink_to link_path (resolve fs target) fs;
      link_dependencies deps_dir items' fs'
  end.

Definition initialize (now : Z) (self : t) (fs : FS.t) : result FS.t :=
  fs ← (if exists_ fs (path self) then rmtree (path self) fs else Ok fs);
  fs ← mkdir (path self) fs;
  fs ← write_text (args_path self) (argkey self) now fs;
  fs ← mkdir (data_dir self) fs;
  fs ← mkdir (deps_dir self) fs;
  if bool_decide (dependencies self ≠ ∅)
  then link_dependencies (deps_dir self) (map_to_list (dependencies self)) fs
  else touch (joinpath (deps_dir self) "__NO_DEPENDENCIES__") now fs.

Definition __init__ (now : Z) (base_path : Path) (instance_id : nat) (argkey : string)
    (dependencies : gmap string Path) (compress_level : Z) (fs : FS.t)
    : result (t * FS.t) :=
  let self := mk base_path instance_id argkey dependencies compress_level in
  if negb (exists_ fs (path self))
  then fs' ← initialize now self fs; Ok (self, fs')
  else Ok (self, fs).

Definition delete (now : Z) (self : t) (fs : FS.t) : result FS.t :=
  initialize now self fs.

(** The codec: [cloudpickle] through [gzip] at a compression level. *)
Context {T : Type}.
Variable dump : Z → T → string.
Variable load : string → result T.

Definition save_result (now : Z) (obj : T) (self : t) (fs : FS.t) : result (Z * FS.t) :=
  let path := result_path self in
  fs' ← write_text path (dump (compress_level self) obj) now fs;
  stamp ← _get_timestamp fs' path;
  Ok (stamp, fs').

Definition load_result (self : t) (fs : FS.t) : result T :=
  let path := result_path self in
  content ← read_text fs path;
  load content.

Definition get_timestamp (self : t) (fs : FS.t) : result Z :=
  let path := result_path self in
  if exists_ fs (result_path self) then _get_timestamp fs path
  else Raise RuntimeError.

End ops.
End InstanceDirectory.

(** ** Database (database.py) *)

Module Database.
Import FS.

(** The fields that never change.  The [IdTable] object that the
    field [id_table] refers to and the file system are the state the
    methods work on. *)
Record t := mk {
  name : string;
  base_path : Path;
  compress_level : Z;
}.

Definition state : Type := IdTable.t * FS.t.

Definition results_directory (self : t) : Path := joinpath (base_path self) "results".
Definition source_path (self : t) : Path := joinpath (base_path self) "source.txt".

Definition __post_init__ (self : t) (fs : FS.t) : result FS.t :=
  mkdir_exist_ok (results_directory self) fs.

Definition load_source_timestamp (self : t) (fs : FS.t) : result Z :=
  _get_timestamp fs (source_path self).

Definition update_source_if_necessary (now : Z) (self : t) (source : string)
    (fs : FS.t) : result (Z * FS.t) :=
  cached_source ←
    (if exists_ fs (source_path self)
     then s ← read_text_mode fs (source_path self); Ok (Some s)
     else Ok None);
  fs' ← (if bool_decide (cached_source ≠ Some source)
         then write_text (source_path self) source now fs
         else Ok fs);
  stamp ← load_source_timestamp self fs';
  Ok (stamp, fs').

Definition get_instance_dir (resolve : FS.t → Path → Path) (now : Z) (self : t)
    (key : string) (deps : gmap string Path) (st : state)
    : result (InstanceDirectory.t * state) :=
  let '(instance_id, id_table) := IdTable.get key st.1 in
  '(dir, fs) ← InstanceDirectory.__init__ resolve now (results_directory self)
                 instance_id key deps (compress_level self) st.2;
  Ok (dir, (id_table, fs)).

Definition clear (self : t) (st : state) : result state :=
  let id_table := IdTable.clear st.1 in
  fs ← (if exists_ st.2 (results_directory self)
        then rmtree (results_directory self) st.2 else Ok st.2);
  fs ← mkdir (results_directory self) fs;
  Ok (id_table, fs).

End Database.

(** ** Concrete states, to run the model on *)

Module Scenario.
Import FS.

(** The results directory of a class with instance 1 already on disk,
    holding a result from an earlier run, and the instance directory of
    an upstream task. *)
Definition demo_fs : FS.t :=
  {[ [] := Dir;
     ["cache"] := Dir;
     ["cache"; "results"] := Dir;
     ["cache"; "results"; "1"] := Dir;
     ["cache"; "results"; "1"; "result.pkl.gz"] := File "old" 5;
     ["cache"; "up"] := Dir ]}.

Definition demo_self : InstanceDirectory.t :=
  InstanceDirectory.mk ["cache"; "results"] 1 "{}" {[ "prev1" := ["cache"; "up"] ]} 0.

(** The directory of the class [Choose] with its source token and one
    instance. *)
Definition demo_db : Database.t := Database.mk "Choose" ["cache"; "Choose"] 0.

Definition demo_db_fs : FS.t :=
  {[ [] := Dir;
     ["cache"] := Dir;
     ["cache"; "Choose"] := Dir;
     ["cache"; "Choose"; "source.txt"] := File "v1" 3;
     ["cache"; "Choose"; "results"] := Dir;
     ["cache"; "Choose"; "results"; "0"] := Dir;
     ["cache"; "Choose"; "results"; "0"; "args.json"] := File "{}" 4 ]}.

End Scenario.

(** * Properties *)

Module IdTableSpec.
Import IdTable.

Lemma init_consistent : consistent (__init__ ∅).
Proof.
  split; simpl.
  - done.
  - intros k i H. by rewrite lookup_empty in H.
  - intros k1 k2 i H. by rewrite lookup_empty in H.
Qed.

(** What one [get] does when the process cache agrees with the store. *)
Lemma get_consistent_spec x self :
  consistent self →
  let '(i, self') := get x self in
  consistent self' ∧
  table self' !! x = Some i ∧
  table self ⊆ table self' ∧
  (table self !! x = None →
     i = size (table self) ∧ table self' = <[x := i]> (table self)) ∧
  (∀ j, table self !! x = Some j → i = j ∧ table self' = table self).
Proof.
  intros [Hsub Hlt Hinj]. unfold get.
  destruct (cache self !! x) as [out|] eqn:Hc.
  - assert (table self !! x = Some out) as Ht
      by (eapply lookup_weaken; eauto).
    split_and!; try done.
    + intros Hn. congruence.
    + intros j Hj. split; congruence.
  - destruct (table self !! x) as [value|] eqn:Ht; simpl.
    + split_and!; try done.
      * split; simpl; try done.
        by apply insert_subseteq_l.
      * intros j [= ->]. done.
    + split_and!.
      * split; simpl.
        -- by apply insert_mono.
        -- intros k i. rewrite map_size_insert_None by done.
           destruct (decide (x = k)) as [->|Hne].
           ++ rewrite lookup_insert_eq. intros [= <-]. lia.
           ++ rewrite lookup_insert_ne by done. intros Hk%Hlt. lia.
        -- intros k1 k2 i.
           destruct (decide (k1 = x)) as [E1|Hne1];
             destruct (decide (k2 = x)) as [E2|Hne2];
             [congruence|rewrite E1|rewrite E2|];
             rewrite ?lookup_insert_eq, ?lookup_insert_ne by done.
           ++ intros [= <-] Hk%Hlt. lia.
           ++ intros Hk%Hlt [= <-]. lia.
           ++ apply Hinj.
      * by rewrite lookup_insert_eq.
      * by apply insert_subseteq.
      * done.
      * done.
Qed.

Lemma run_Get x ops self :
  run (Get x :: ops) self =
  ((x, (get x self).1) :: (run ops (get x self).2).1,
   (run ops (get x self).2).2).
Proof.
  simpl. destruct (get x self) as [i s1]; simpl.
  by destruct (run ops s1).
Qed.

Lemma run_Clear ops self : run (Clear :: ops) self = run ops (clear self).
Proof. done. Qed.

Lemma run_gets_invariant ks self :
  consistent self →
  consistent (run (Get <$> ks) self).2 ∧
  table self ⊆ table (run (Get <$> ks) self).2 ∧
  (∀ k i, (k, i) ∈ (run (Get <$> ks) self).1 →
          table (run (Get <$> ks) self).2 !! k = Some i) ∧
  ids_monotone (table self) (run (Get <$> ks) self).1.
Proof.
  revert self. induction ks as [|x ks IH]; intros self Hc.
  - simpl. split_and!; [done|done| |].
    + intros k i Hin. by apply elem_of_nil in Hin.
    + intros q k2 i2 Hq. by rewrite lookup_nil in Hq.
  - rewrite fmap_cons, run_Get.
    pose proof (get_consistent_spec x self Hc) as Hget.
    destruct (get x self) as [i s1].
    destruct Hget as (Hc1 & Hx & Hsub & Hnew & Hold).
    destruct (IH s1 Hc1) as (Hc2 & Hsub2 & Hkept & Hmono).
    cbn [fst snd].
    destruct (run (Get <$> ks) s1) as [tr s2]; cbn [fst snd] in *.
    split_and!.
    + done.
    + by etrans.
    + intros k j [[= -> ->]|Hin]%elem_of_cons; [|by apply Hkept].
      by eapply lookup_weaken.
    + intros [|q] k2 i2 Hq Hfresh Hfirst; simpl in Hq.
      * injection Hq as -> ->.
        destruct (Hnew Hfresh) as [-> _]. split.
        -- intros k j Hk. by eapply ids_below.
        -- intros p k1 i1 Hp. lia.
      * assert (k2 ≠ x) as Hne.
        { intros ->. by apply (Hfirst 0 i); [lia|]. }
        assert (table s1 !! k2 = None) as Hfresh1.
        { destruct (table self !! x) as [j|] eqn:Hj.
          - destruct (Hold j eq_refl) as [_ ->]. done.
          - destruct (Hnew eq_refl) as [_ ->].
            by rewrite lookup_insert_ne. }
        destruct (Hmono q k2 i2 Hq Hfresh1) as [Hknown Hearlier].
        { intros r j Hr. apply (Hfirst (S r) j). lia. }
        split.
        -- intros k j Hk. apply (Hknown k). by eapply lookup_weaken.
        -- intros [|p] k1 i1 Hp Hlk; simpl in Hlk.
           ++ injection Hlk as -> ->. by apply (Hknown k1).
           ++ apply (Hearlier p k1); [lia|done].
Qed.

(** C1, as amended.  On a table whose process cache agrees with its
    store (every table from its creation up to the first [clear]), any
    sequence of [get] calls hands out ids such that: two keys have the
    same id exactly when they are the same key; an id given at a first
    sighting is larger than every id given before; every id handed out
    stays recorded for its key, earlier records are kept, and the store
    never holds one id for two keys. *)
Theorem get_ids_injective_monotone_stable (self : t) (ks : list string) :
  consistent self →
  ids_injective (run (Get <$> ks) self).1 ∧
  ids_monotone (table self) (run (Get <$> ks) self).1 ∧
  (∀ k i, (k, i) ∈ (run (Get <$> ks) self).1 →
          table (run (Get <$> ks) self).2 !! k = Some i) ∧
  table self ⊆ table (run (Get <$> ks) self).2 ∧
  (∀ k1 k2 i, table (run (Get <$> ks) self).2 !! k1 = Some i →
              table (run (Get <$> ks) self).2 !! k2 = Some i → k1 = k2).
Proof.
  intros Hc.
  destruct (run_gets_invariant ks self Hc) as (Hc' & Hsub & Hkept & Hmono).
  split_and!; try done.
  - intros k1 k2 i1 i2 H1%Hkept H2%Hkept. split.
    + intros <-. by eapply ids_inj.
    + intros <-. congruence.
  - by apply ids_inj.
Qed.

Lemma get_ids_injective_monotone_stable_witness :
  (run (Get <$> ["a"; "b"; "a"; "c"]) (__init__ ∅)).1
    = [("a", 0); ("b", 1); ("a", 0); ("c", 2)] ∧
  ids_injective (run (Get <$> ["a"; "b"; "a"; "c"]) (__init__ ∅)).1.
Proof.
  split; [by vm_compute|].
  apply (get_ids_injective_monotone_stable (__init__ ∅) ["a"; "b"; "a"; "c"]).
  apply init_consistent.
Defined.

(** C1 as stated fails once [clear] is among the calls: the store is
    emptied, so the next new key is numbered [len(self.table) = 0]
    again.  Keys "a" and "b" both receive id 0. *)
Lemma ids_reused_after_clear :
  ¬ ids_injective (run [Get "a"; Clear; Get "b"] (__init__ ∅)).1.
Proof.
  intros Hinj.
  assert ((run [Get "a"; Clear; Get "b"] (__init__ ∅)).1
          = [("a", 0); ("b", 0)]) as Htr by by vm_compute.
  rewrite Htr in Hinj.
  assert ("a" = "b") as Hab; [|done].
  apply (Hinj "a" "b" 0 0); [| |done].
  - apply elem_of_cons. by left.
  - rewrite !elem_of_cons. by right; left.
Qed.

Lemma clear_spec self :
  table (clear self) = ∅ ∧ cache (clear self) = cache self.
Proof. done. Qed.

(** C2.  After get "a"; get "b"; clear the store is empty, yet the
    process cache still maps "b" to 1: the next [get "b"] returns the
    remembered 1 and writes nothing, where a first sighting on an empty
    table returns 0 and records it.  The new keys "c" and "d" then get 0
    and 1, so "d" shares its id with "b". *)
Theorem clear_leaves_process_cache :
  let self := (run [Get "a"; Get "b"; Clear] (__init__ ∅)).2 in
  table self = ∅ ∧
  cache self !! "b" = Some 1 ∧
  get "b" self = (1, self) ∧
  (get "b" (__init__ ∅)).1 = 0 ∧
  (run [Get "b"; Get "c"; Get "d"] self).1 = [("b", 1); ("c", 0); ("d", 1)].
Proof. by vm_compute. Qed.

(** C3.  After get "a"; get "b"; clear the key "b" is absent from the
    store, whose size is 0; [get "b"] should number it 0 and insert it,
    but the cache that [clear] left behind answers: the call returns 1 and
    inserts nothing.  On a table whose cache agrees with its store [get]
    does what the claim says ([get_consistent_spec]). *)
Theorem get_absent_key_served_from_cache :
  let self := (run [Get "a"; Get "b"; Clear] (__init__ ∅)).2 in
  table self !! "b" = None ∧
  size (table self) = 0 ∧
  (get "b" self).1 = 1 ∧
  table (get "b" self).2 !! "b" = None ∧
  ¬ ((get "b" self).1 = size (table self) ∧
     table (get "b" self).2 !! "b" = Some (size (table self))).
Proof.
  split_and!; try by vm_compute.
  intros [Hid _]. by vm_compute in Hid.
Qed.

(** Two calls in a row with one key agree, in every state. *)
Lemma get_twice x self :
  (get x (get x self).2).1 = (get x self).1.
Proof.
  unfold get at 2 3.
  destruct (cache self !! x) as [out|] eqn:Hc; simpl.
  - unfold get. by rewrite Hc.
  - destruct (table self !! x) as [value|]; simpl;
      unfold get; simpl; by rewrite lookup_insert_eq.
Qed.

(** [get] in any state: it returns the id the process cache remembers
    for the key, if any, and touches nothing.  Otherwise it returns the
    stored id when the key is in the table, and when the key is absent it
    takes the size of the table as the new id, inserts the pair and returns
    the id; either way the id is remembered in the cache.  Two consecutive
    calls with one key return the same id. *)
Lemma get_cache_then_table (x : string) (self : t) :
  (∀ out, cache self !! x = Some out → get x self = (out, self)) ∧
  (cache self !! x = None →
     (∀ value, table self !! x = Some value →
        get x self = (value, {| table := table self;
                                cache := <[x := value]> (cache self) |})) ∧
     (table self !! x = None →
        get x self = (size (table self),
                      {| table := <[x := size (table self)]> (table self);
                         cache := <[x := size (table self)]> (cache self) |}))) ∧
  (get x (get x self).2).1 = (get x self).1.
Proof.
  split_and!.
  - intros out Hc. unfold get. by rewrite Hc.
  - intros Hc. split.
    + intros value Ht. unfold get. by rewrite Hc, Ht.
    + intros Ht. unfold get. by rewrite Hc, Ht.
  - apply get_twice.
Qed.

Example get_cache_then_table_new_key :
  get "b" (__init__ {[ "a" := 0 ]})
  = (1, {| table := {[ "a" := 0; "b" := 1 ]}; cache := {[ "b" := 1 ]} |}).
Proof.
  destruct (get_cache_then_table "b" (__init__ {[ "a" := 0 ]})) as (_ & Hmiss & _).
  destruct (Hmiss eq_refl) as [_ Hnew].
  rewrite Hnew by by vm_compute. by vm_compute.
Qed.

End IdTableSpec.

Module FuturesSpec.
Import Futures.
Section facts.
Context {pyobj task : Type}.
Variable isinstance_json_key : pyobj → bool.
Variable subscript : pyobj → pyobj → result pyobj.
Variable py_list : list pyobj → pyobj.
Variable py_bool : bool → pyobj.
Variable py_str : string → pyobj.
Variable repr : pyobj → string.
Variable eval : string → result pyobj.
Variable py_eq : pyobj → pyobj → result bool.
Variable task_run_task : task → result pyobj.
Variable task_get_task_result : task → result pyobj.
Variable task_to_json : task → gmap string pyobj.

#[local] Abbreviation Fut := (@Future pyobj task).
#[local] Abbreviation result_of := (get_task_result subscript task_get_task_result).
#[local] Abbreviation json_of :=
  (to_json py_list py_bool py_str repr task_to_json).

Lemma bind_Ok_r {A} (r : result A) : (v ← r; Ok v) = r.
Proof. by destruct r. Qed.

Lemma bind_assoc {A B C} (r : result A) (f : A → result B) (g : B → result C) :
  (y ← (x ← r; f x); g y) = (x ← r; y ← f x; g y).
Proof. by destruct r. Qed.

Lemma get_args_loop_acc (x : Fut) out :
  get_args_loop x out = out ++ get_args_loop x [].
Proof.
  revert out. induction x as [o|x IH k]; intros out; simpl.
  - by rewrite app_nil_r.
  - rewrite IH, (IH [k]). by rewrite app_assoc.
Qed.

Lemma get_args_Base (o : Origin) : get_args (Base o : Fut) = [].
Proof. done. Qed.

(** The keys come out oldest first: the loop collects them newest
    first and the final [out[::-1]] undoes that. *)
Lemma get_args_MappedFuture (x : Fut) k :
  get_args (MappedFuture x k) = get_args x ++ [k].
Proof.
  unfold get_args. simpl. rewrite get_args_loop_acc.
  by rewrite rev_app_distr.
Qed.

Lemma subscripts_app v ks1 ks2 :
  subscripts subscript v (ks1 ++ ks2)
  = (w ← subscripts subscript v ks1; subscripts subscript w ks2).
Proof.
  revert v. induction ks1 as [|k ks1 IH]; intros v; simpl; [done|].
  destruct (subscript v k) as [v'|e]; simpl; [apply IH|done].
Qed.

Lemma project_Ok (f : Fut) ks :
  Forall (λ k, isinstance_json_key k = true) ks →
  ∃ g, project isinstance_json_key f ks = Ok g ∧
       get_origin g = get_origin f ∧
       get_args g = get_args f ++ ks ∧
       (ks ≠ [] → ∃ x k, g = MappedFuture x k).
Proof.
  intros Hks. revert f.
  induction Hks as [|k ks Hk _ IH]; intros f; simpl.
  - exists f. by rewrite app_nil_r.
  - unfold __getitem__. rewrite Hk. simpl.
    destruct (IH (MappedFuture f k)) as (g & Hg & Ho & Ha & Hm).
    exists g. split_and!; try done.
    + rewrite Ha, get_args_MappedFuture. by rewrite <-app_assoc.
    + intros _. destruct ks as [|k' ks'].
      * simpl in Hg. injection Hg as <-. eauto.
      * by apply Hm.
Qed.

(** Reading any future is reading its origin and indexing along its
    key path. *)
Lemma get_task_result_path (f : Fut) :
  result_of f =
  (out ← Origin_get_task_result task_get_task_result (get_origin f);
   subscripts subscript out (get_args f)).
Proof.
  destruct f as [o|x k]; [|done].
  simpl. by rewrite bind_Ok_r.
Qed.

(** Reading a chain of projections is the loop of
    [MappedFuture.get_task_result] run on the keys of the chain. *)
Lemma get_task_result_project (f : Fut) (ks : list pyobj) :
  Forall (λ k, isinstance_json_key k = true) ks →
  ∃ g, project isinstance_json_key f ks = Ok g ∧
       result_of g = (out ← result_of f; subscripts subscript out ks).
Proof.
  intros Hks.
  destruct (project_Ok f ks Hks) as (g & Hg & Ho & Ha & _).
  exists g. split; [done|].
  rewrite !get_task_result_path, Ho, Ha, bind_assoc.
  destruct (Origin_get_task_result _ _) as [out|e]; simpl; [|done].
  apply subscripts_app.
Qed.

(** The loop indexes as the nested expression does. *)
Lemma subscripts_index_nested (r : result pyobj) (ks : list pyobj) :
  (out ← r; subscripts subscript out ks) = index_nested subscript r ks.
Proof.
  revert r. induction ks as [|k ks IH]; intros r.
  - apply bind_Ok_r.
  - change (index_nested subscript r (k :: ks))
      with (index_nested subscript
              (match r with Ok v => subscript v k | Raise e => Raise e end) ks).
    rewrite <-IH. by destruct r.
Qed.

(** C4.  For a future [f] and JSON-literal keys [k1 .. kn], the chain
    [f[k1]...[kn]] is built, and reading it gives what the expression
    [f.get_task_result()[k1]...[kn]] gives: the result of [f] indexed by
    [k1], then by [k2], and so on to [kn]; an exception on one side is the
    same exception on the other. *)
Theorem projection_transparent (f : Fut) (ks : list pyobj) :
  Forall (λ k, isinstance_json_key k = true) ks →
  ∃ g, project isinstance_json_key f ks = Ok g ∧
       result_of g = index_nested subscript (result_of f) ks.
Proof.
  intros Hks.
  destruct (get_task_result_project f ks Hks) as (g & Hg & Hres).
  exists g. split; [done|]. rewrite Hres. apply subscripts_index_nested.
Qed.

(** C5.  For a future [f] that is not a projection and a non-empty
    list of JSON-literal keys, [f[k1]...[kn]] has origin [f], and its
    [to_json()] is that of [f] with "__key__" set to the list
    [[k1, ..., kn]]. *)
Theorem projection_chain_collapses (o : Origin) (k : pyobj) (ks : list pyobj) :
  Forall (λ k, isinstance_json_key k = true) (k :: ks) →
  ∃ g, project isinstance_json_key (Base o) (k :: ks) = Ok g ∧
       get_origin g = o ∧
       get_args g = k :: ks ∧
       json_of g = <["__key__" := py_list (k :: ks)]> (json_of (Base o)).
Proof.
  intros Hks.
  destruct (project_Ok (Base o) (k :: ks) Hks) as (g & Hg & Ho & Ha & Hm).
  exists g. split_and!; try done.
  destruct Hm as (x & k' & ->); [done|].
  simpl. unfold MappedFuture_to_json. by rewrite Ho, Ha.
Qed.

(** C6.  [Const(v)] raises exactly when [eval(repr(v))] raises or
    does not give a value that compares equal to [v]; a constructed
    [Const] returns [v] from [run_task()] and from
    [get_task_result()]. *)
Theorem const_literal (v : pyobj) :
  ((∃ e, Const_new repr eval py_eq v = Raise e) ↔
   ¬ ∃ xx, eval (repr v) = Ok xx ∧ py_eq v xx = Ok true) ∧
  (∀ c : Const, Const_new repr eval py_eq v = Ok c →
     Const_run_task c = Ok v ∧
     Const_get_task_result c = Ok v ∧
     run_task task_run_task (Base (OConst c)) = Ok v ∧
     result_of (Base (OConst c)) = Ok v).
Proof.
  unfold Const_new, _check_if_literal. simpl. split.
  - destruct (eval (repr v)) as [xx|e] eqn:He; simpl.
    + destruct (py_eq v xx) as [[|]|e] eqn:Heq; simpl; split.
      * intros [e [=]].
      * intros Hn. exfalso. apply Hn. eauto.
      * intros _ (xx' & [= <-] & Heq'). congruence.
      * eauto.
      * intros _ (xx' & [= <-] & Heq'). congruence.
      * eauto.
    + split; [|eauto]. intros _ (xx & [=] & _).
  - intros c Hc.
    destruct (eval (repr v)) as [xx|e]; [|done].
    destruct (py_eq v xx) as [[|]|e]; [|done|done].
    by injection Hc as <-.
Qed.

End facts.

(** The scenario of [test_mapping]: [MultiResultTask()['hello'][1]]. *)
Example mapping_scenario :
  let f := Base (OTask "MultiResultTask") in
  ∃ g, project PyJson.isinstance_json_key f [PyJson.JStr "hello"; PyJson.JInt 1] = Ok g ∧
       get_task_result PyJson.subscript PyJson.task_get_task_result g
         = Ok (PyJson.JStr "42") ∧
       to_json PyJson.JList PyJson.JBool PyJson.JStr PyJson.repr PyJson.task_to_json g
         = {[ "__task__" := PyJson.JStr "MultiResultTask";
              "__args__" := PyJson.JDict [];
              "__key__" := PyJson.JList [PyJson.JStr "hello"; PyJson.JInt 1] ]}.
Proof. eexists. split; [reflexivity|]. split; by vm_compute. Qed.

Lemma projection_transparent_witness :
  ∃ g, project PyJson.isinstance_json_key
         (Base (OTask "MultiResultTask")) [PyJson.JStr "hello"; PyJson.JInt 1] = Ok g ∧
       get_task_result PyJson.subscript PyJson.task_get_task_result g
       = Ok (PyJson.JStr "42").
Proof.
  destruct (projection_transparent PyJson.isinstance_json_key PyJson.subscript
              PyJson.task_get_task_result (Base (OTask "MultiResultTask"))
              [PyJson.JStr "hello"; PyJson.JInt 1]) as (g & Hg & Hres).
  - repeat constructor.
  - exists g. split; [exact Hg|]. rewrite Hres. reflexivity.
Defined.

Lemma projection_chain_collapses_witness :
  ∃ g, project PyJson.isinstance_json_key
         (Base (OTask "MultiResultTask")) [PyJson.JStr "hello"; PyJson.JInt 1] = Ok g ∧
       get_origin g = OTask "MultiResultTask" ∧
       get_args g = [PyJson.JStr "hello"; PyJson.JInt 1] ∧
       to_json PyJson.JList PyJson.JBool PyJson.JStr PyJson.repr PyJson.task_to_json g
       = <["__key__" := PyJson.JList [PyJson.JStr "hello"; PyJson.JInt 1]]>
           (to_json PyJson.JList PyJson.JBool PyJson.JStr PyJson.repr
              PyJson.task_to_json (Base (OTask "MultiResultTask"))).
Proof.
  apply (projection_chain_collapses PyJson.isinstance_json_key PyJson.JList
           PyJson.JBool PyJson.JStr PyJson.repr PyJson.task_to_json).
  repeat constructor.
Defined.

Lemma const_literal_witness :
  Const_new PyAtom.repr PyAtom.eval PyAtom.py_eq (PyAtom.AInt (-42))
    = Ok {| value := PyAtom.AInt (-42) |} ∧
  Const_run_task {| value := PyAtom.AInt (-42) |} = Ok (PyAtom.AInt (-42)) ∧
  Const_get_task_result {| value := PyAtom.AInt (-42) |} = Ok (PyAtom.AInt (-42)).
Proof.
  assert (Const_new PyAtom.repr PyAtom.eval PyAtom.py_eq (PyAtom.AInt (-42))
          = Ok {| value := PyAtom.AInt (-42) |}) as Hnew by by vm_compute.
  split; [exact Hnew|].
  destruct (const_literal (task := unit) PyAtom.subscript_none PyAtom.repr
              PyAtom.eval PyAtom.py_eq (λ _, Raise RuntimeError)
              (λ _, Raise RuntimeError) (PyAtom.AInt (-42))) as [_ Hc].
  destruct (Hc _ Hnew) as (H1 & H2 & _). by split.
Defined.

(** A plain [object()] is refused: its repr is not an expression. *)
Example const_object_refused :
  Const_new PyAtom.repr PyAtom.eval PyAtom.py_eq (PyAtom.AObject 255)
    = Raise AssertionError.
Proof. by vm_compute. Qed.

(** [True == 1], so [Const(True)] passes the check as well. *)
Example const_bool_accepted :
  Const_new PyAtom.repr PyAtom.eval PyAtom.py_eq (PyAtom.ABool true)
    = Ok {| value := PyAtom.ABool true |}.
Proof. by vm_compute. Qed.

End FuturesSpec.

Module PathSpec.
Import FS.

Lemma string_app_nil_r (s : string) : s +:+ "" = s.
Proof.
  induction s as [|c s IH]; [done|].
  change (String c (s +:+ "") = String c s). by rewrite IH.
Qed.

Lemma string_app_snoc (cur : string) c (s : string) :
  (cur +:+ String c "") +:+ s = cur +:+ String c s.
Proof.
  induction cur as [|c' cur IH]; [done|].
  change (String c' ((cur +:+ String c "") +:+ s) = String c' (cur +:+ String c s)).
  by rewrite IH.
Qed.

Lemma split_slash_no_slash s cur :
  contains_char "/"%char s = false → split_slash s cur = [cur +:+ s].
Proof.
  revert cur. induction s as [|c s IH]; intros cur;
    cbn [contains_char split_slash].
  - by rewrite string_app_nil_r.
  - intros [Hc Hs]%orb_false_iff. rewrite Hc, IH by done.
    by rewrite string_app_snoc.
Qed.

(** Joining with a single component appends it. *)
Lemma joinpath_component p name :
  is_component name = true → joinpath p name = p ++ [name].
Proof.
  unfold is_component, joinpath, parts.
  intros [[[H1 H2]%andb_true_iff _]%andb_true_iff Hs%negb_true_iff]%andb_true_iff.
  rewrite split_slash_no_slash by done.
  change ("" +:+ name) with name. cbn [List.filter].
  rewrite H1, H2. cbn [andb].
  destruct name as [|c name]; [done|].
  cbn [contains_char is_absolute] in *.
  apply orb_false_iff in Hs as [-> _]. done.
Qed.

Lemma pretty_N_char_digit x :
  all_digits (String (pretty_N_char x) "") = true.
Proof. unfold pretty_N_char. by repeat case_match. Qed.

Lemma pretty_N_go_digits x s :
  all_digits s = true → s ≠ "" →
  all_digits (pretty_N_go x s) = true ∧ pretty_N_go x s ≠ "".
Proof.
  revert s. induction (N.lt_wf_0 x) as [x _ IH]; intros s Hs Hne.
  destruct (decide (x = 0)%N) as [->|Hx].
  - by rewrite pretty_N_go_0.
  - rewrite pretty_N_go_step by lia. apply IH.
    + apply N.div_lt; lia.
    + pose proof (pretty_N_char_digit (x `mod` 10)) as Hd.
      simpl in *. apply andb_true_iff in Hd as [-> _]. done.
    + done.
Qed.

Lemma pretty_nat_digits (n : nat) :
  all_digits (pretty n) = true ∧ pretty n ≠ "".
Proof.
  unfold pretty, pretty_nat, pretty, pretty_N.
  case_decide; [done|].
  assert (0 < N.of_nat n)%N as Hpos by lia.
  rewrite pretty_N_go_step by done.
  apply pretty_N_go_digits; [|done].
  pose proof (pretty_N_char_digit (N.of_nat n `mod` 10)) as Hd.
  simpl in *. by rewrite andb_true_r in *.
Qed.

Lemma all_digits_component s :
  all_digits s = true → s ≠ "" → is_component s = true.
Proof.
  intros Hd Hne. unfold is_component.
  assert (contains_char "/"%char s = false) as ->.
  { clear Hne. induction s as [|c s IH]; [done|].
    cbn [all_digits contains_char] in *.
    apply andb_true_iff in Hd as [Hc Hd]. rewrite (IH Hd), orb_false_r.
    destruct (Ascii.eqb_spec c "/"%char) as [->|]; [|done].
    by vm_compute in Hc. }
  destruct (String.eqb_spec s "") as [->|_]; [done|].
  destruct (String.eqb_spec s ".") as [->|_]; [done|].
  destruct (String.eqb_spec s "..") as [->|_]; [done|].
  done.
Qed.

(** [str(i)] of a non-negative int is one path component. *)
Lemma str_int_component (n : nat) : is_component (pretty n) = true.
Proof.
  destruct (pretty_nat_digits n). by apply all_digits_component.
Qed.

End PathSpec.

Module FSSpec.
Import FS PathSpec.

Lemma parent_snoc (p : Path) x : parent (p ++ [x]) = p.
Proof. apply removelast_last. Qed.

Lemma parent_app (P q : Path) : q ≠ [] → parent (P ++ q) = P ++ parent q.
Proof. intros Hq. by apply removelast_app. Qed.

Lemma wf_parent fs p x n :
  wf fs → fs !! (p ++ [x]) = Some n → fs !! p = Some Dir.
Proof.
  intros Hwf Hp. destruct (Hwf _ _ Hp) as [Hnil|Hpar].
  - by destruct p.
  - by rewrite parent_snoc in Hpar.
Qed.

(** Nothing lies below a path that is not there. *)
Lemma wf_absent_below fs P q :
  wf fs → fs !! P = None → fs !! (P ++ q) = None.
Proof.
  intros Hwf HP. induction q as [|x q IH] using rev_ind.
  - by rewrite app_nil_r.
  - destruct (fs !! (P ++ q ++ [x])) as [n|] eqn:Hn; [|done].
    rewrite app_assoc in Hn. apply wf_parent in Hn; [|done]. congruence.
Qed.

Lemma not_prefix_snoc (p : Path) x : ¬ (p ++ [x]) `prefix_of` p.
Proof.
  intros Hpre%prefix_length. rewrite length_app in Hpre. simpl in Hpre. lia.
Qed.

Lemma follow_not_link fuel fs p :
  (∀ target, fs !! p ≠ Some (Symlink target)) → follow fuel fs p = Some p.
Proof.
  intros Hp. destruct fuel; simpl;
    destruct (fs !! p) as [[| |target]|] eqn:E; try done;
    by destruct (Hp target).
Qed.

Lemma exists_Dir fs p : fs !! p = Some Dir → exists_ fs p = true.
Proof.
  intros Hp. unfold exists_. rewrite follow_not_link by (intros ?; congruence).
  rewrite Hp. by apply bool_decide_eq_true_2.
Qed.

Lemma exists_None fs p : fs !! p = None → exists_ fs p = false.
Proof.
  intros Hp. unfold exists_. rewrite follow_not_link by (intros ?; congruence).
  rewrite Hp. apply bool_decide_eq_false_2. by intros [? ?].
Qed.

Lemma agree_outside_refl P fs : agree_outside P fs fs.
Proof. done. Qed.

Lemma agree_outside_trans P fs1 fs2 fs3 :
  agree_outside P fs1 fs2 → agree_outside P fs2 fs3 → agree_outside P fs1 fs3.
Proof. intros H12 H23 p Hp. by rewrite H12, H23. Qed.

(** *** Grafting *)

Lemma lookup_graft_below P u fs q :
  graft P u fs !! (P ++ q) = (u !! q) ∪ (fs !! (P ++ q)).
Proof.
  unfold graft. rewrite lookup_union. by rewrite (lookup_kmap (app P)).
Qed.

Lemma lookup_graft_root P u fs :
  graft P u fs !! P = (u !! []) ∪ (fs !! P).
Proof.
  pose proof (lookup_graft_below P u fs []) as H.
  by rewrite app_nil_r in H.
Qed.

Lemma lookup_graft_outside P u fs p :
  ¬ P `prefix_of` p → graft P u fs !! p = fs !! p.
Proof.
  intros Hp. unfold graft. rewrite lookup_union.
  rewrite (proj2 (lookup_kmap_None (app P) u p)); [by rewrite (left_id None _)|].
  intros q ->. destruct Hp. by exists q.
Qed.

Lemma graft_empty P fs : graft P ∅ fs = fs.
Proof. unfold graft. rewrite kmap_empty. by rewrite (left_id ∅ _). Qed.

Lemma insert_graft P u fs q n :
  <[P ++ q := n]> (graft P u fs) = graft P (<[q := n]> u) fs.
Proof.
  unfold graft. rewrite (kmap_insert (app P)). by rewrite insert_union_l.
Qed.

Lemma graft_agree_outside P u fs : agree_outside P (graft P u fs) fs.
Proof. intros p Hp. by apply lookup_graft_outside. Qed.

(** Removing a directory that is there, or finding none: either way
    nothing is left at [P] or below, and the rest is as before. *)
Lemma clear_path fs P :
  wf fs → fs !! P = None ∨ fs !! P = Some Dir →
  ∃ fs1, (if exists_ fs P then rmtree P fs else Ok fs) = Ok fs1 ∧
         (∀ q, fs1 !! (P ++ q) = None) ∧
         agree_outside P fs1 fs.
Proof.
  intros Hwf [HP|HP].
  - rewrite exists_None by done. exists fs. split_and!; [done| |done].
    intros q. by apply wf_absent_below.
  - rewrite exists_Dir by done. unfold rmtree. rewrite HP.
    eexists. split_and!; [done| |].
    + intros q. apply map_lookup_filter_None. right.
      intros n _ Hn. apply Hn. simpl. by exists q.
    + intros p Hp. destruct (fs !! p) as [n|] eqn:Hn.
      * by apply map_lookup_filter_Some.
      * apply map_lookup_filter_None. by left.
Qed.

(** *** The updates, on a grafted subtree *)

Section below.
Variables (P : Path) (u fs : FS.t) (q : Path).
Hypothesis Hq : q ≠ [].
Hypothesis Hfresh : u !! q = None.
Hypothesis Hbelow : ∀ q', fs !! (P ++ q') = None.
Hypothesis Hparent : u !! parent q = Some Dir.

Lemma graft_lookup_fresh : graft P u fs !! (P ++ q) = None.
Proof using Hfresh Hbelow. by rewrite lookup_graft_below, Hfresh, Hbelow. Qed.

Lemma graft_check_parent : check_parent (graft P u fs) (P ++ q) = Ok ().
Proof using Hq Hparent Hbelow.
  unfold check_parent. rewrite parent_app by done.
  by rewrite lookup_graft_below, Hparent, Hbelow.
Qed.

Lemma graft_follow_fresh : follow MAXSYMLINKS (graft P u fs) (P ++ q) = Some (P ++ q).
Proof using Hfresh Hbelow.
  apply follow_not_link. intros target. by rewrite graft_lookup_fresh.
Qed.

Lemma mkdir_graft :
  mkdir (P ++ q) (graft P u fs) = Ok (graft P (<[q := Dir]> u) fs).
Proof using All.
  unfold mkdir. rewrite graft_lookup_fresh, graft_check_parent. simpl.
  by rewrite insert_graft.
Qed.

Lemma write_text_graft content now :
  write_text (P ++ q) content now (graft P u fs)
  = Ok (graft P (<[q := File content now]> u) fs).
Proof using All.
  unfold write_text.
  rewrite graft_follow_fresh, graft_lookup_fresh, graft_check_parent. simpl.
  by rewrite insert_graft.
Qed.

Lemma touch_graft now :
  touch (P ++ q) now (graft P u fs) = Ok (graft P (<[q := File "" now]> u) fs).
Proof using All.
  unfold touch.
  rewrite graft_follow_fresh, graft_lookup_fresh, graft_check_parent. simpl.
  by rewrite insert_graft.
Qed.

Lemma symlink_to_graft target :
  symlink_to (P ++ q) target (graft P u fs)
  = Ok (graft P (<[q := Symlink target]> u) fs).
Proof using All.
  unfold symlink_to. rewrite graft_lookup_fresh, graft_check_parent. simpl.
  by rewrite insert_graft.
Qed.
End below.

(** Making the directory [P] itself. *)
Lemma mkdir_root P fs :
  (∀ q, fs !! (P ++ q) = None) → fs !! parent P = Some Dir →
  mkdir P fs = Ok (graft P {[ [] := Dir ]} fs).
Proof.
  intros Hbelow Hpar. unfold mkdir, check_parent.
  specialize (Hbelow []) as HP. rewrite app_nil_r in HP.
  rewrite HP, Hpar. simpl.
  rewrite <-(graft_empty P fs) at 1.
  rewrite <-(app_nil_r P) at 1. rewrite insert_graft.
  by rewrite insert_empty.
Qed.

End FSSpec.

Module InstanceDirectorySpec.
Import FS PathSpec FSSpec InstanceDirectory Scenario.

Lemma path_eq self : path self = base_path self ++ [pretty (task_id self)].
Proof. apply joinpath_component, str_int_component. Qed.

Lemma args_path_eq self : args_path self = path self ++ ["args.json"].
Proof. by apply joinpath_component. Qed.

Lemma result_path_eq self : result_path self = path self ++ ["result.pkl.gz"].
Proof. by apply joinpath_component. Qed.

Lemma stdout_path_eq self : stdout_path self = path self ++ ["stdout.txt"].
Proof. by apply joinpath_component. Qed.

Lemma stderr_path_eq self : stderr_path self = path self ++ ["stderr.txt"].
Proof. by apply joinpath_component. Qed.

Lemma data_dir_eq self : data_dir self = path self ++ ["data"].
Proof. by apply joinpath_component. Qed.

Lemma deps_dir_eq self : deps_dir self = path self ++ ["deps"].
Proof. by apply joinpath_component. Qed.

Lemma deps_entry_eq self name :
  is_component name = true →
  joinpath (deps_dir self) name = path self ++ ["deps"; name].
Proof.
  intros Hn. rewrite joinpath_component, deps_dir_eq by done.
  by rewrite <-app_assoc.
Qed.

Section links.
Variable resolve : FS.t → Path → Path.
Variables (P : Path) (fs0 fs1 : FS.t).
Hypothesis Hbelow : ∀ q, fs1 !! (P ++ q) = None.
Hypothesis Hagree : agree_outside P fs1 fs0.

(** The loop leaves one link per item below [deps], each to the
    resolved target, and touches nothing else. *)
Lemma link_dependencies_graft items u :
  NoDup items.*1 →
  Forall (λ it, is_component it.1 = true) items →
  (∀ it fsa fsb, it ∈ items → agree_outside P fsa fsb →
                 resolve fsa it.2 = resolve fsb it.2) →
  u !! ["deps"] = Some Dir →
  (∀ it, it ∈ items → u !! ["deps"; it.1] = None) →
  ∃ u', link_dependencies resolve (P ++ ["deps"]) items (graft P u fs1)
          = Ok (graft P u' fs1) ∧
        (∀ n t, (n, t) ∈ items →
                u' !! ["deps"; n] = Some (Symlink (resolve fs0 t))) ∧
        (∀ q, (∀ n, n ∈ items.*1 → q ≠ ["deps"; n]) → u' !! q = u !! q).
Proof using Hbelow Hagree.
  revert u. induction items as [|[n t] items IH];
    intros u Hnd Hcomp Hres Hdeps Hfresh.
  - exists u. split_and!; [done| |done].
    intros n t Hin. by apply elem_of_nil in Hin.
  - rewrite fmap_cons in Hnd. apply NoDup_cons in Hnd as [Hn Hnd].
    apply Forall_cons in Hcomp as [Hc Hcomp]. simpl in Hc, Hn.
    cbn [link_dependencies].
    rewrite joinpath_component, <-app_assoc by done. simpl app.
    rewrite symlink_to_graft; [|done| |done|done]; cycle 1.
    { apply (Hfresh (n, t)). apply elem_of_cons. by left. }
    simpl.
    assert (resolve (graft P u fs1) t = resolve fs0 t) as ->.
    { apply (Hres (n, t)); [apply elem_of_cons; by left|].
      eapply agree_outside_trans; [apply graft_agree_outside|done]. }
    destruct (IH (<[["deps"; n] := Symlink (resolve fs0 t)]> u))
      as (u' & Hrun & Hlinks & Hrest); try done.
    + intros it fsa fsb Hin. apply Hres. apply elem_of_cons. by right.
    + by rewrite lookup_insert_ne.
    + intros [n' t'] Hin. simpl.
      rewrite lookup_insert_ne.
      * apply (Hfresh (n', t')). apply elem_of_cons. by right.
      * intros [= <-]. apply Hn. apply list_elem_of_fmap. by exists (n, t').
    + exists u'. split_and!; [done| |].
      * intros n' t' [[= -> ->]|Hin]%elem_of_cons; [|by apply Hlinks].
        rewrite Hrest; [by rewrite lookup_insert_eq|].
        intros n' Hn' [= <-]. done.
      * intros q Hq. rewrite Hrest.
        -- rewrite lookup_insert_ne; [done|].
           intros <-. apply (Hq n); [|done]. simpl.
           apply elem_of_cons. by left.
        -- intros n' Hn'. apply Hq. simpl.
           apply elem_of_cons. by right.
Qed.
End links.

Section initialize.
Variable resolve : FS.t → Path → Path.
Variables (now : Z) (self : InstanceDirectory.t) (fs : FS.t).
Hypothesis Hwf : wf fs.
Hypothesis Hbase : fs !! base_path self = Some Dir.
Hypothesis Hpath : fs !! path self = None ∨ fs !! path self = Some Dir.
Hypothesis Hnames :
  map_Forall (λ name _, is_component name = true) (dependencies self).
Hypothesis Hresolve :
  ∀ name target fsa fsb,
    dependencies self !! name = Some target →
    agree_outside (path self) fsa fsb →
    resolve fsa target = resolve fsb target.

(** [initialize] in closed form: what was at the instance path is
    gone and the subtree [u] stands in its place. *)
Lemma initialize_graft :
  ∃ fs1 u,
    initialize resolve now self fs = Ok (graft (path self) u fs1) ∧
    (∀ q, fs1 !! (path self ++ q) = None) ∧
    agree_outside (path self) fs1 fs ∧
    u !! [] = Some Dir ∧
    u !! ["args.json"] = Some (File (argkey self) now) ∧
    u !! ["data"] = Some Dir ∧
    u !! ["deps"] = Some Dir ∧
    (∀ name target, dependencies self !! name = Some target →
       u !! ["deps"; name] = Some (Symlink (resolve fs target))) ∧
    (dependencies self = ∅ →
       u !! ["deps"; "__NO_DEPENDENCIES__"] = Some (File "" now)) ∧
    (∀ q, is_Some (u !! q) →
       q ∈ [[]; ["args.json"]; ["data"]; ["deps"]] ∨
       ∃ name, q = ["deps"; name] ∧
               (is_Some (dependencies self !! name) ∨
                dependencies self = ∅ ∧ name = "__NO_DEPENDENCIES__")).
Proof using All.
  destruct (clear_path fs (path self) Hwf Hpath) as (fs1 & Hstep & Hbelow & Hagree).
  exists fs1. unfold initialize. rewrite Hstep. simpl.
  rewrite mkdir_root; [|done|]; cycle 1.
  { rewrite path_eq, parent_snoc, <-Hbase. apply Hagree.
    rewrite path_eq. apply not_prefix_snoc. }
  simpl. rewrite args_path_eq, write_text_graft by done. simpl.
  rewrite data_dir_eq, mkdir_graft by done. simpl.
  rewrite deps_dir_eq, mkdir_graft by done. simpl.
  set (u5 := <[["deps"] := Dir]> (<[["data"] := Dir]>
               (<[["args.json"] := File (argkey self) now]> {[ [] := Dir ]}))).
  assert (∀ q, is_Some (u5 !! q) → q ∈ [[]; ["args.json"]; ["data"]; ["deps"]])
    as Hu5.
  { intros q. unfold u5. rewrite !lookup_insert_is_Some, lookup_singleton_is_Some.
    rewrite !elem_of_cons. intros [<-|[_ [<-|[_ [<-|[_ <-]]]]]]; auto. }
  case_bool_decide as Hdeps.
  - destruct (link_dependencies_graft resolve (path self) fs fs1 Hbelow Hagree
                (map_to_list (dependencies self)) u5)
      as (u' & Hrun & Hlinks & Hrest).
    + apply NoDup_fst_map_to_list.
    + apply Forall_forall. intros [n t] Hin%elem_of_map_to_list.
      by apply (Hnames n t).
    + intros [n t] fsa fsb Hin%elem_of_map_to_list Hag. simpl.
      by apply (Hresolve n).
    + done.
    + intros [n t] _. unfold u5. simpl.
      by rewrite !lookup_insert_ne, lookup_singleton_ne.
    + exists u'. rewrite Hrun. split_and!; try done.
      * by rewrite Hrest.
      * by rewrite Hrest.
      * by rewrite Hrest.
      * by rewrite Hrest.
      * intros n t Hin. apply Hlinks. by apply elem_of_map_to_list.
      * intros q Hq.
        destruct (decide (q ∈ (λ n, ["deps"; n]) <$>
                                (map_to_list (dependencies self)).*1))
          as [(n & -> & Hn)%list_elem_of_fmap|Hno].
        -- right. exists n. split; [done|]. left.
           apply list_elem_of_fmap in Hn as ([n' t] & -> & Hin).
           apply elem_of_map_to_list in Hin. by exists t.
        -- left. apply Hu5. rewrite <-Hrest; [done|].
           intros n Hn ->. apply Hno. apply list_elem_of_fmap. eauto.
  - rewrite joinpath_component, <-app_assoc by done. simpl app.
    rewrite touch_graft by done.
    eexists. split_and!; try done.
    + intros n t. rewrite Hdeps. by rewrite lookup_empty.
    + intros q. rewrite lookup_insert_is_Some.
      intros [<-|[_ Hq]]; [|by left; apply Hu5].
      right. exists "__NO_DEPENDENCIES__". auto.
Qed.

(** C7.  On a well-formed file system where the results directory
    exists and the instance path is absent or a directory, with
    dependency names that are single path components and targets whose
    resolution does not depend on what lies below the instance path,
    [initialize()] succeeds, and afterwards: the instance path is a
    directory; args.json holds the argkey; data/ and deps/ are
    directories; deps/__NO_DEPENDENCIES__ is an empty file exactly when
    there are no dependencies; every dependency name is a link in deps/
    to its resolved target; nothing else is left at or below the
    instance path; the rest of the file system is unchanged. *)
Theorem initialize_layout :
  ∃ fs',
    initialize resolve now self fs = Ok fs' ∧
    fs' !! path self = Some Dir ∧
    fs' !! args_path self = Some (File (argkey self) now) ∧
    fs' !! data_dir self = Some Dir ∧
    fs' !! deps_dir self = Some Dir ∧
    (fs' !! joinpath (deps_dir self) "__NO_DEPENDENCIES__" = Some (File "" now)
     ↔ dependencies self = ∅) ∧
    (∀ name target, dependencies self !! name = Some target →
       fs' !! joinpath (deps_dir self) name = Some (Symlink (resolve fs target))) ∧
    (∀ p, path self `prefix_of` p → is_Some (fs' !! p) →
       p ∈ [path self; args_path self; data_dir self; deps_dir self] ∨
       ∃ name, p = joinpath (deps_dir self) name ∧
               (is_Some (dependencies self !! name) ∨
                dependencies self = ∅ ∧ name = "__NO_DEPENDENCIES__")) ∧
    agree_outside (path self) fs' fs.
Proof using All.
  destruct initialize_graft
    as (fs1 & u & Hrun & Hbelow & Hagree & Hroot & Hargs & Hdata & Hdeps
        & Hlinks & Hsentinel & Honly).
  assert (∀ q, graft (path self) u fs1 !! (path self ++ q) = u !! q) as Hlk.
  { intros q. rewrite lookup_graft_below, Hbelow. by destruct (u !! q). }
  exists (graft (path self) u fs1). split_and!.
  - done.
  - rewrite <-(app_nil_r (path self)) at 1. by rewrite Hlk.
  - by rewrite args_path_eq, Hlk.
  - by rewrite data_dir_eq, Hlk.
  - by rewrite deps_dir_eq, Hlk.
  - rewrite deps_entry_eq, Hlk by done. split; [|done].
    intros Hfile.
    destruct (Honly ["deps"; "__NO_DEPENDENCIES__"]) as [Hin|(n & [= <-] & Hn)].
    + by rewrite Hfile.
    + rewrite !elem_of_cons in Hin.
      by destruct Hin as [?|[?|[?|[?|[]%elem_of_nil]]]].
    + destruct Hn as [[t Ht]|[? _]]; [|done].
      rewrite (Hlinks _ _ Ht) in Hfile. done.
  - intros name target Hname.
    rewrite deps_entry_eq, Hlk by (by eapply Hnames). by apply Hlinks.
  - intros p [q ->]. rewrite Hlk. intros Hq.
    destruct (Honly q Hq) as [Hin|(name & -> & Hname)].
    + left. rewrite args_path_eq, data_dir_eq, deps_dir_eq.
      rewrite !elem_of_cons in Hin |- *.
      destruct Hin as [->|[->|[->|[->|[]%elem_of_nil]]]];
        rewrite ?app_nil_r; auto.
    + right. exists name. split; [|done].
      rewrite deps_entry_eq; [done|].
      destruct Hname as [[t Ht]|[_ ->]]; [by eapply Hnames|done].
  - eapply agree_outside_trans; [apply graft_agree_outside|done].
Qed.

End initialize.

(** C9.  Making an [InstanceDirectory] object for a path that exists
    runs no initialization: the file system is returned as it was, so
    args.json, the result file, data/ and deps/ keep their content. *)
Theorem new_keeps_existing_directory resolve now base_path instance_id argkey
    dependencies compress_level fs :
  exists_ fs (path (mk base_path instance_id argkey dependencies compress_level))
    = true →
  __init__ resolve now base_path instance_id argkey dependencies compress_level fs
  = Ok (mk base_path instance_id argkey dependencies compress_level, fs).
Proof. intros Hex. unfold __init__. by rewrite Hex. Qed.

(** When the path is not there, the constructor is [initialize];
    [delete] is [initialize] always. *)
Lemma new_initializes_missing resolve now base_path instance_id argkey
    dependencies compress_level fs :
  exists_ fs (path (mk base_path instance_id argkey dependencies compress_level))
    = false →
  __init__ resolve now base_path instance_id argkey dependencies compress_level fs
  = (fs' ← initialize resolve now
             (mk base_path instance_id argkey dependencies compress_level) fs;
     Ok (mk base_path instance_id argkey dependencies compress_level, fs')).
Proof. intros Hex. unfold __init__. by rewrite Hex. Qed.

Lemma delete_is_initialize resolve now self fs :
  delete resolve now self fs = initialize resolve now self fs.
Proof. done. Qed.

Lemma new_keeps_existing_directory_witness :
  exists_ demo_fs (path demo_self) = true ∧
  __init__ (λ _ p, p) 7 ["cache"; "results"] 1 "{}" {[ "prev1" := ["cache"; "up"] ]} 0 demo_fs
    = Ok (demo_self, demo_fs) ∧
  demo_fs !! result_path demo_self = Some (File "old" 5).
Proof.
  split; [by vm_compute|]. split; [|by vm_compute].
  apply (new_keeps_existing_directory (λ _ p, p) 7 ["cache"; "results"] 1 "{}"
           {[ "prev1" := ["cache"; "up"] ]} 0 demo_fs).
  by vm_compute.
Defined.

(** C8, as amended.  The result file is named result.pkl.gz and the
    captured output files stdout.txt and stderr.txt, each directly under
    the instance path; [save_result] writes the encoded object to that
    result file and returns its modification time. *)
Theorem result_files_named {T} (dump : Z → T → string) now obj self fs :
  fs !! path self = Some Dir →
  (fs !! result_path self = None ∨
   ∃ content mtime, fs !! result_path self = Some (File content mtime)) →
  result_path self = path self ++ ["result.pkl.gz"] ∧
  stdout_path self = path self ++ ["stdout.txt"] ∧
  stderr_path self = path self ++ ["stderr.txt"] ∧
  save_result dump now obj self fs
  = Ok (now, <[path self ++ ["result.pkl.gz"] :=
                 File (dump (compress_level self) obj) now]> fs).
Proof.
  intros Hdir Hres.
  split; [apply result_path_eq|]. split; [apply stdout_path_eq|].
  split; [apply stderr_path_eq|].
  unfold save_result, write_text, _get_timestamp, st_mtime_ns, check_parent.
  rewrite result_path_eq in *. generalize MAXSYMLINKS as fuel. intros fuel.
  rewrite follow_not_link; cycle 1.
  { intros target. destruct Hres as [->|(c & m & ->)]; done. }
  rewrite parent_snoc, Hdir.
  destruct Hres as [->|(c & m & ->)]; simpl;
    (rewrite follow_not_link by (intros ?; by rewrite lookup_insert_eq));
    by rewrite lookup_insert_eq.
Qed.

Lemma result_files_named_witness :
  result_path demo_self = path demo_self ++ ["result.pkl.gz"] ∧
  stdout_path demo_self = path demo_self ++ ["stdout.txt"] ∧
  stderr_path demo_self = path demo_self ++ ["stderr.txt"] ∧
  save_result (λ _ (obj : string), obj) 9 "new" demo_self demo_fs
  = Ok (9%Z, <[path demo_self ++ ["result.pkl.gz"] := File "new" 9]> demo_fs).
Proof.
  apply (result_files_named (λ _ (obj : string), obj) 9 "new" demo_self demo_fs).
  - by vm_compute.
  - right. exists "old", 5%Z. by vm_compute.
Defined.

(** C8 as stated fails: no file of an instance is named result,
    stdout or stderr. *)
Lemma result_file_not_named_result :
  result_path demo_self ≠ joinpath (path demo_self) "result" ∧
  stdout_path demo_self ≠ joinpath (path demo_self) "stdout" ∧
  stderr_path demo_self ≠ joinpath (path demo_self) "stderr".
Proof. split_and!; by vm_compute. Qed.

(** The same call, evaluated: nine entries in all, the stale result
    file not among them. *)
Example initialize_demo :
  match initialize (λ _ p, p) 7 demo_self demo_fs with
  | Ok fs' =>
      size fs' = 9 ∧
      fs' !! ["cache"; "results"; "1"] = Some Dir ∧
      fs' !! ["cache"; "results"; "1"; "args.json"] = Some (File "{}" 7) ∧
      fs' !! ["cache"; "results"; "1"; "data"] = Some Dir ∧
      fs' !! ["cache"; "results"; "1"; "deps"] = Some Dir ∧
      fs' !! ["cache"; "results"; "1"; "deps"; "prev1"] = Some (Symlink ["cache"; "up"]) ∧
      fs' !! ["cache"; "results"; "1"; "result.pkl.gz"] = None
  | Raise _ => False
  end.
Proof. by vm_compute. Qed.

(** Without dependencies the sentinel is made; instance 1 is not
    touched by the initialization of instance 2. *)
Example initialize_no_dependencies :
  match initialize (λ _ p, p) 7
          (InstanceDirectory.mk ["cache"; "results"] 2 "{}" ∅ 0) demo_fs with
  | Ok fs' =>
      size fs' = 11 ∧
      fs' !! ["cache"; "results"; "2"; "deps"; "__NO_DEPENDENCIES__"] = Some (File "" 7) ∧
      fs' !! ["cache"; "results"; "1"; "result.pkl.gz"] = Some (File "old" 5)
  | Raise _ => False
  end.
Proof. by vm_compute. Qed.

(** A dependency name with a slash names a path below a directory that
    is not there. *)
Example initialize_nested_name :
  initialize (λ _ p, p) 7
    (InstanceDirectory.mk ["cache"; "results"] 2 "{}" {[ "a/b" := ["cache"; "up"] ]} 0)
    demo_fs
  = Raise FileNotFoundError.
Proof. by vm_compute. Qed.

Lemma initialize_layout_witness :
  ∃ fs',
    initialize (λ _ p, p) 7 demo_self demo_fs = Ok fs' ∧
    fs' !! path demo_self = Some Dir ∧
    fs' !! args_path demo_self = Some (File (argkey demo_self) 7) ∧
    fs' !! data_dir demo_self = Some Dir ∧
    fs' !! deps_dir demo_self = Some Dir ∧
    (fs' !! joinpath (deps_dir demo_self) "__NO_DEPENDENCIES__" = Some (File "" 7)
     ↔ dependencies demo_self = ∅) ∧
    (∀ name target, dependencies demo_self !! name = Some target →
       fs' !! joinpath (deps_dir demo_self) name = Some (Symlink target)) ∧
    (∀ p, path demo_self `prefix_of` p → is_Some (fs' !! p) →
       p ∈ [path demo_self; args_path demo_self; data_dir demo_self;
            deps_dir demo_self] ∨
       ∃ name, p = joinpath (deps_dir demo_self) name ∧
               (is_Some (dependencies demo_self !! name) ∨
                dependencies demo_self = ∅ ∧ name = "__NO_DEPENDENCIES__")) ∧
    agree_outside (path demo_self) fs' demo_fs.
Proof.
  apply (initialize_layout (λ _ p, p) 7 demo_self demo_fs).
  - apply (bool_decide_unpack (wf demo_fs)). by vm_compute.
  - by vm_compute.
  - right. by vm_compute.
  - apply (bool_decide_unpack (map_Forall _ _)). by vm_compute.
  - done.
Defined.

End InstanceDirectorySpec.

Module DatabaseSpec.
Import FS PathSpec FSSpec Database Scenario.

Lemma results_directory_eq self : results_directory self = base_path self ++ ["results"].
Proof. by apply joinpath_component. Qed.

Lemma source_path_eq self : source_path self = base_path self ++ ["source.txt"].
Proof. by apply joinpath_component. Qed.

Lemma source_not_in_results self :
  ¬ results_directory self `prefix_of` source_path self.
Proof.
  rewrite results_directory_eq, source_path_eq. intros [q Hq].
  rewrite <-app_assoc in Hq. by apply app_inv_head in Hq.
Qed.

(** C10.  On a well-formed file system where the class directory
    exists and results/ is absent or a directory, [clear()] succeeds; the
    id table's store is empty afterwards, results/ is an empty directory,
    and nothing outside results/ has changed.  In particular source.txt
    is the same entry: a stored token and its modification time read the
    same after the clear as before. *)
Theorem clear_keeps_source (self : Database.t) (id_table : IdTable.t) (fs : FS.t) :
  wf fs →
  fs !! base_path self = Some Dir →
  fs !! results_directory self = None ∨ fs !! results_directory self = Some Dir →
  ∃ id_table' fs',
    clear self (id_table, fs) = Ok (id_table', fs') ∧
    IdTable.table id_table' = ∅ ∧
    fs' !! results_directory self = Some Dir ∧
    (∀ q, q ≠ [] → fs' !! (results_directory self ++ q) = None) ∧
    agree_outside (results_directory self) fs' fs ∧
    fs' !! source_path self = fs !! source_path self ∧
    (∀ token mtime, fs !! source_path self = Some (File token mtime) →
       read_text fs' (source_path self) = Ok token ∧
       load_source_timestamp self fs' = Ok mtime ∧
       load_source_timestamp self fs = Ok mtime).
Proof.
  intros Hwf Hbase Hres.
  destruct (clear_path fs (results_directory self) Hwf Hres)
    as (fs1 & Hstep & Hbelow & Hagree).
  unfold clear. simpl. rewrite Hstep. simpl.
  rewrite mkdir_root; [|done|]; cycle 1.
  { rewrite results_directory_eq, parent_snoc, <-Hbase. apply Hagree.
    rewrite results_directory_eq. apply not_prefix_snoc. }
  simpl.
  assert (agree_outside (results_directory self)
            (graft (results_directory self) {[ [] := Dir ]} fs1) fs) as Hout.
  { eapply agree_outside_trans; [apply graft_agree_outside|done]. }
  pose proof (Hout _ (source_not_in_results self)) as Hsrc.
  eexists _, _. split_and!; try done.
  - rewrite lookup_graft_root, lookup_singleton_eq.
    by destruct (fs1 !! results_directory self).
  - intros q Hq. rewrite lookup_graft_below, Hbelow.
    by rewrite lookup_singleton_ne.
  - intros token mtime Hfile.
    unfold load_source_timestamp, _get_timestamp, st_mtime_ns, read_text.
    rewrite !follow_not_link by (intros ?; congruence).
    by rewrite Hsrc, Hfile.
Qed.

Lemma clear_keeps_source_witness :
  ∃ id_table' fs',
    clear demo_db (IdTable.__init__ {[ "{}" := 0 ]}, demo_db_fs) = Ok (id_table', fs') ∧
    IdTable.table id_table' = ∅ ∧
    fs' !! results_directory demo_db = Some Dir ∧
    (∀ q, q ≠ [] → fs' !! (results_directory demo_db ++ q) = None) ∧
    agree_outside (results_directory demo_db) fs' demo_db_fs ∧
    fs' !! source_path demo_db = demo_db_fs !! source_path demo_db ∧
    (∀ token mtime, demo_db_fs !! source_path demo_db = Some (File token mtime) →
       read_text fs' (source_path demo_db) = Ok token ∧
       load_source_timestamp demo_db fs' = Ok mtime ∧
       load_source_timestamp demo_db demo_db_fs = Ok mtime).
Proof.
  apply (clear_keeps_source demo_db (IdTable.__init__ {[ "{}" := 0 ]}) demo_db_fs).
  - apply (bool_decide_unpack (wf demo_db_fs)). by vm_compute.
  - by vm_compute.
  - right. by vm_compute.
Defined.

(** The same call, evaluated: results/ is left empty, source.txt is
    as before. *)
Example clear_demo :
  match clear demo_db (IdTable.__init__ {[ "{}" := 0 ]}, demo_db_fs) with
  | Ok (id_table', fs') =>
      IdTable.table id_table' = ∅ ∧
      size fs' = 5 ∧
      fs' !! ["cache"; "Choose"; "results"] = Some Dir ∧
      fs' !! ["cache"; "Choose"; "source.txt"] = Some (File "v1" 3)
  | Raise _ => False
  end.
Proof. by vm_compute. Qed.

(** Writing the token that is already stored leaves the file and its
    time alone; a new token is written and stamped. *)
Example update_source_demo :
  match update_source_if_necessary 9 demo_db "v1" demo_db_fs,
        update_source_if_necessary 9 demo_db "v2" demo_db_fs with
  | Ok (stamp1, fs1), Ok (stamp2, fs2) =>
      stamp1 = 3%Z ∧
      fs1 !! ["cache"; "Choose"; "source.txt"] = Some (File "v1" 3) ∧
      stamp2 = 9%Z ∧
      fs2 !! ["cache"; "Choose"; "source.txt"] = Some (File "v2" 9)
  | _, _ => False
  end.
Proof. by vm_compute. Qed.

(** A first sighting of a fingerprint numbers it and sets up its
    directory. *)
Example get_instance_dir_demo :
  match get_instance_dir (λ _ p, p) 9 demo_db "{x}" ∅
          (IdTable.__init__ {[ "{}" := 0 ]}, demo_db_fs) with
  | Ok (dir, (id_table', fs')) =>
      InstanceDirectory.task_id dir = 1 ∧
      IdTable.table id_table' !! "{x}" = Some 1 ∧
      IdTable.cache id_table' !! "{x}" = Some 1 ∧
      fs' !! ["cache"; "Choose"; "results"; "1"; "args.json"] = Some (File "{x}" 9) ∧
      fs' !! ["cache"; "Choose"; "results"; "0"; "args.json"] = Some (File "{}" 4)
  | Raise _ => False
  end.
Proof. by vm_compute. Qed.

End DatabaseSpec.


(** * Further properties *)

Module IdTableMore.
Import IdTable IdTableSpec.

(** A new object on a store that numbers its keys 0 .. size-1 without
    repetition. *)
Lemma init_store_consistent (stored : gmap string nat) :
  (∀ k i, stored !! k = Some i → i < size stored) →
  (∀ k1 k2 i, stored !! k1 = Some i → stored !! k2 = Some i → k1 = k2) →
  consistent (__init__ stored).
Proof. intros Hlt Hinj. split; simpl; [apply map_empty_subseteq|done|done]. Qed.

(** One [get] on a table whose cache agrees with its store: the store
    gains the key and nothing else, and keeps its ids without gaps. *)
Lemma get_dom_dense x self :
  consistent self →
  dom (table (get x self).2) = dom (table self) ∪ {[x]} ∧
  (dense self → dense (get x self).2).
Proof.
  intros Hc. pose proof (get_consistent_spec x self Hc) as Hget.
  destruct (get x self) as [i s1]. cbn [fst snd].
  destruct Hget as (Hc1 & Hx & Hsub & Hnew & Hold).
  destruct (table self !! x) as [j|] eqn:Hj.
  - destruct (Hold j eq_refl) as [-> Ht]. unfold dense. rewrite Ht.
    split; [|done]. apply elem_of_dom_2 in Hj. set_solver.
  - destruct (Hnew eq_refl) as [-> Ht]. unfold dense. rewrite Ht. split.
    + rewrite dom_insert_L. set_solver.
    + intros Hd i. rewrite map_size_insert_None by done. intros Hi.
      destruct (decide (i = size (table self))) as [->|Hne].
      * exists x. by rewrite lookup_insert_eq.
      * destruct (Hd i) as [k Hk]; [lia|]. exists k.
        rewrite lookup_insert_ne; [done|]. intros <-. congruence.
Qed.

(** X1.  After any sequence of [get] calls on a table whose cache
    agrees with its store, the store holds exactly the keys it held
    before and the keys asked for; each of them answers [key in table]. *)
Theorem gets_domain (self : t) (ks : list string) :
  consistent self →
  dom (table (run (Get <$> ks) self).2) = dom (table self) ∪ list_to_set ks ∧
  (∀ k, k ∈ ks → __contains__ k (run (Get <$> ks) self).2 = true).
Proof.
  intros Hc.
  assert (dom (table (run (Get <$> ks) self).2)
          = dom (table self) ∪ list_to_set ks) as Hdom.
  { revert self Hc. induction ks as [|x ks IH]; intros self Hc.
    - simpl. set_solver.
    - rewrite fmap_cons, run_Get. cbn [snd].
      pose proof (get_consistent_spec x self Hc) as Hget.
      destruct (get_dom_dense x self Hc) as [Hd _].
      destruct (get x self) as [i s1]. cbn [fst snd] in *.
      destruct Hget as (Hc1 & _).
      rewrite (IH s1 Hc1), Hd. set_solver. }
  split; [done|].
  intros k Hk. unfold __contains__. apply bool_decide_eq_true_2.
  apply elem_of_dom. rewrite Hdom. set_solver.
Qed.

Lemma gets_domain_witness :
  dom (table (run (Get <$> ["a"; "b"; "a"]) (__init__ {[ "z" := 0 ]})).2)
  = dom (table (__init__ {[ "z" := 0 ]})) ∪ list_to_set ["a"; "b"; "a"] ∧
  (∀ k, k ∈ ["a"; "b"; "a"] →
        __contains__ k (run (Get <$> ["a"; "b"; "a"]) (__init__ {[ "z" := 0 ]})).2 = true).
Proof.
  apply (gets_domain (__init__ {[ "z" := 0 ]}) ["a"; "b"; "a"]).
  apply init_store_consistent.
  - intros k i [<- <-]%lookup_singleton_Some. by vm_compute.
  - intros k1 k2 i [<- <-]%lookup_singleton_Some [<- _]%lookup_singleton_Some. done.
Defined.

(** X2.  The ids of a store stay the numbers 0 .. size-1 without a
    gap: if every number below the size is some key's id before a sequence
    of [get] calls, the same holds after it. *)
Theorem gets_keep_ids_dense (self : t) (ks : list string) :
  consistent self → dense self → dense (run (Get <$> ks) self).2.
Proof.
  revert self. induction ks as [|x ks IH]; intros self Hc Hd; [done|].
  rewrite fmap_cons, run_Get. cbn [snd].
  pose proof (get_consistent_spec x self Hc) as Hget.
  destruct (get_dom_dense x self Hc) as [_ Hd1].
  destruct (get x self) as [i s1]. cbn [fst snd] in *.
  destruct Hget as (Hc1 & _). apply IH; auto.
Qed.

Lemma gets_keep_ids_dense_witness :
  dense (run (Get <$> ["a"; "b"; "a"; "c"]) (__init__ ∅)).2.
Proof.
  apply (gets_keep_ids_dense (__init__ ∅) ["a"; "b"; "a"; "c"]).
  - apply init_consistent.
  - intros i Hi. simpl in Hi. rewrite map_size_empty in Hi. lia.
Defined.

(** Two objects on one store, each with a cache that agrees with it,
    answer a sequence of [get] calls alike. *)
Lemma gets_cache_independent ks s1 s2 :
  consistent s1 → consistent s2 → table s1 = table s2 →
  (run (Get <$> ks) s1).1 = (run (Get <$> ks) s2).1 ∧
  table (run (Get <$> ks) s1).2 = table (run (Get <$> ks) s2).2.
Proof.
  revert s1 s2. induction ks as [|x ks IH]; intros s1 s2 Hc1 Hc2 Ht; [done|].
  rewrite fmap_cons, !run_Get. cbn [fst snd].
  pose proof (get_consistent_spec x s1 Hc1) as Hg1.
  pose proof (get_consistent_spec x s2 Hc2) as Hg2.
  destruct (get x s1) as [i1 s1'], (get x s2) as [i2 s2']. cbn [fst snd].
  destruct Hg1 as (Hc1' & _ & _ & Hnew1 & Hold1).
  destruct Hg2 as (Hc2' & _ & _ & Hnew2 & Hold2).
  rewrite <-Ht in Hnew2, Hold2.
  assert (i1 = i2 ∧ table s1' = table s2') as [<- Ht'].
  { destruct (table s1 !! x) as [j|] eqn:Hj.
    - destruct (Hold1 j eq_refl) as [-> ->], (Hold2 j eq_refl) as [-> ->]. done.
    - destruct (Hnew1 eq_refl) as [-> ->], (Hnew2 eq_refl) as [-> ->]. done. }
  destruct (IH s1' s2' Hc1' Hc2' Ht') as [-> ->]. done.
Qed.

(** X3.  The cache only saves reads: a new object opened on the same
    store (a new process) returns the same ids for any sequence of [get]
    calls as the object whose cache agrees with the store, and leaves the
    same store. *)
Theorem gets_same_after_restart (self : t) (ks : list string) :
  consistent self →
  (run (Get <$> ks) (__init__ (table self))).1 = (run (Get <$> ks) self).1 ∧
  table (run (Get <$> ks) (__init__ (table self))).2
  = table (run (Get <$> ks) self).2.
Proof.
  intros Hc. apply gets_cache_independent; [|done|done].
  destruct Hc as [_ Hlt Hinj]. by apply init_store_consistent.
Qed.

Lemma gets_same_after_restart_witness :
  (run (Get <$> ["b"; "c"]) (__init__ (table (run [Get "a"; Get "b"] (__init__ ∅)).2))).1
  = (run (Get <$> ["b"; "c"]) (run [Get "a"; Get "b"] (__init__ ∅)).2).1.
Proof.
  apply (gets_same_after_restart (run [Get "a"; Get "b"] (__init__ ∅)).2 ["b"; "c"]).
  apply (run_gets_invariant ["a"; "b"] (__init__ ∅)). apply init_consistent.
Defined.

End IdTableMore.

Module FuturesMore.
Import Futures FuturesSpec.
Section facts.
Context {pyobj task : Type}.
Variable isinstance_json_key : pyobj → bool.
Variable py_list : list pyobj → pyobj.
Variable py_bool : bool → pyobj.
Variable py_str : string → pyobj.
Variable repr : pyobj → string.
Variable task_to_json : task → gmap string pyobj.

#[local] Abbreviation Fut := (@Future pyobj task).
#[local] Abbreviation json_of :=
  (to_json py_list py_bool py_str repr task_to_json).

Lemma project_Ok_inv (f : Fut) ks g :
  project isinstance_json_key f ks = Ok g →
  Forall (λ k, isinstance_json_key k = true) ks.
Proof.
  revert f. induction ks as [|k ks IH]; intros f; simpl; [done|].
  unfold __getitem__. destruct (isinstance_json_key k) eqn:Hk; simpl; [|done].
  intros Hp. constructor; [done|]. by eapply IH.
Qed.

(** X4.  A chain of projections [f[k1]...[kn]] is built exactly when
    every key is a JSON literal: one key that is not makes the
    construction raise, whatever the future and the other keys are. *)
Theorem project_rejects_bad_key (f : Fut) (ks : list pyobj) :
  (∃ g, project isinstance_json_key f ks = Ok g)
  ↔ Forall (λ k, isinstance_json_key k = true) ks.
Proof.
  split.
  - intros [g Hg]. by eapply project_Ok_inv.
  - intros Hks. destruct (project_Ok isinstance_json_key f ks Hks) as (g & Hg & _).
    by exists g.
Qed.

(** The reference object of any future is that of its origin, with the
    key path added when the future is a projection. *)
Lemma to_json_path (f : Fut) :
  json_of f =
  match f with
  | Base _ => json_of (Base (get_origin f))
  | MappedFuture _ _ =>
      <["__key__" := py_list (get_args f)]> (json_of (Base (get_origin f)))
  end.
Proof. by destruct f. Qed.

(** X5.  Indexing any future [f], a projection or not, by a JSON
    literal [k] gives a projection with the origin of [f] and the path of
    [f] extended by [k]; its reference object is that of [f] with
    "__key__" set to the extended path. *)
Theorem getitem_extends_path (f : Fut) (k : pyobj) :
  isinstance_json_key k = true →
  __getitem__ isinstance_json_key f k = Ok (MappedFuture f k) ∧
  get_origin (MappedFuture f k) = get_origin f ∧
  get_args (MappedFuture f k) = get_args f ++ [k] ∧
  json_of (MappedFuture f k)
  = <["__key__" := py_list (get_args f ++ [k])]> (json_of f).
Proof.
  intros Hk. unfold __getitem__. rewrite Hk.
  split_and!; [done|done|apply get_args_MappedFuture|].
  rewrite (to_json_path (MappedFuture f k)), get_args_MappedFuture.
  rewrite (to_json_path f). simpl get_origin.
  destruct f as [o|x k']; [done|]. by rewrite insert_insert_eq.
Qed.

(** X6.  Where distinct lists of keys are distinct list objects, the
    reference object tells projection paths apart: two chains of
    projections from one origin with equal reference objects have the same
    keys. *)
Theorem to_json_determines_path (o : Origin) (ks1 ks2 : list pyobj) (g1 g2 : Fut) :
  Inj (=) (=) py_list →
  ks1 ≠ [] → ks2 ≠ [] →
  project isinstance_json_key (Base o) ks1 = Ok g1 →
  project isinstance_json_key (Base o) ks2 = Ok g2 →
  json_of g1 = json_of g2 →
  ks1 = ks2.
Proof.
  intros Hinj Hne1 Hne2 Hp1 Hp2 Hjson.
  assert (∀ ks g, ks ≠ [] → project isinstance_json_key (Base o) ks = Ok g →
                  json_of g !! "__key__" = Some (py_list ks)) as Hkey.
  { intros ks g Hne Hp.
    pose proof (project_Ok_inv _ _ _ Hp) as Hks.
    destruct (project_Ok isinstance_json_key (Base o) ks Hks)
      as (g' & Hg' & _ & Ha & Hm).
    rewrite Hp in Hg'. injection Hg' as <-.
    destruct (Hm Hne) as (x & k & ->).
    rewrite to_json_path, Ha. by rewrite lookup_insert_eq. }
  pose proof (Hkey ks1 g1 Hne1 Hp1) as H1.
  pose proof (Hkey ks2 g2 Hne2 Hp2) as H2.
  rewrite Hjson, H2 in H1. injection H1 as H1. by apply Hinj in H1.
Qed.

End facts.

Lemma project_rejects_bad_key_witness :
  ¬ ∃ g, project PyJson.isinstance_json_key (Base (OTask "MultiResultTask"))
           [PyJson.JStr "hello"; PyJson.JList []] = Ok g.
Proof.
  intros Hg.
  apply (project_rejects_bad_key PyJson.isinstance_json_key
           (Base (OTask "MultiResultTask")) [PyJson.JStr "hello"; PyJson.JList []])
    in Hg.
  apply Forall_cons in Hg as [_ Hg]. apply Forall_cons in Hg as [Hbad _].
  discriminate Hbad.
Defined.

Lemma getitem_extends_path_witness :
  let f := MappedFuture (Base (OTask "MultiResultTask")) (PyJson.JStr "hello") in
  __getitem__ PyJson.isinstance_json_key f (PyJson.JInt 1)
    = Ok (MappedFuture f (PyJson.JInt 1)) ∧
  get_origin (MappedFuture f (PyJson.JInt 1)) = get_origin f ∧
  get_args (MappedFuture f (PyJson.JInt 1)) = get_args f ++ [PyJson.JInt 1] ∧
  to_json PyJson.JList PyJson.JBool PyJson.JStr PyJson.repr PyJson.task_to_json
    (MappedFuture f (PyJson.JInt 1))
  = <["__key__" := PyJson.JList (get_args f ++ [PyJson.JInt 1])]>
      (to_json PyJson.JList PyJson.JBool PyJson.JStr PyJson.repr
         PyJson.task_to_json f).
Proof.
  apply (getitem_extends_path PyJson.isinstance_json_key PyJson.JList PyJson.JBool
           PyJson.JStr PyJson.repr PyJson.task_to_json).
  reflexivity.
Defined.

Lemma to_json_determines_path_witness :
  [PyJson.JStr "hello"; PyJson.JInt 1] = [PyJson.JStr "hello"; PyJson.JInt 1].
Proof.
  apply (to_json_determines_path PyJson.isinstance_json_key PyJson.JList
           PyJson.JBool PyJson.JStr PyJson.repr PyJson.task_to_json
           (OTask "MultiResultTask") _ _
           (MappedFuture (MappedFuture (Base (OTask "MultiResultTask"))
                            (PyJson.JStr "hello")) (PyJson.JInt 1))
           (MappedFuture (MappedFuture (Base (OTask "MultiResultTask"))
                            (PyJson.JStr "hello")) (PyJson.JInt 1))).
  - intros x y [= ->]. reflexivity.
  - discriminate.
  - discriminate.
  - reflexivity.
  - reflexivity.
  - reflexivity.
Defined.

End FuturesMore.

Module FSMore.
Import FS FSSpec.

(** Reading a path that holds nothing. *)
Lemma absent_reads fs p :
  fs !! p = None →
  exists_ fs p = false ∧ read_text fs p = Raise FileNotFoundError.
Proof.
  intros Hp. split; [by apply exists_None|].
  unfold read_text. rewrite follow_not_link by (intros ?; congruence).
  by rewrite Hp.
Qed.

(** Reading a regular file. *)
Lemma file_reads fs p content mtime :
  fs !! p = Some (File content mtime) →
  exists_ fs p = true ∧ read_text fs p = Ok content ∧ st_mtime_ns fs p = Ok mtime.
Proof.
  intros Hp. unfold exists_, read_text, st_mtime_ns.
  rewrite !follow_not_link by (intros ?; congruence). rewrite Hp.
  split; [|done]. by apply bool_decide_eq_true_2.
Qed.

(** Writing a path that holds nothing or a regular file, in a directory
    that is there. *)
Lemma write_text_file fs p name content now :
  fs !! p = Some Dir →
  (fs !! (p ++ [name]) = None ∨
   ∃ c m, fs !! (p ++ [name]) = Some (File c m)) →
  write_text (p ++ [name]) content now fs
  = Ok (<[p ++ [name] := File content now]> fs).
Proof.
  intros Hdir Hold. unfold write_text, check_parent.
  rewrite follow_not_link; cycle 1.
  { intros target. destruct Hold as [->|(c & m & ->)]; done. }
  rewrite parent_snoc, Hdir.
  by destruct Hold as [->|(c & m & ->)].
Qed.

End FSMore.

Module InstanceDirectoryMore.
Import FS PathSpec FSSpec FSMore InstanceDirectory InstanceDirectorySpec Scenario.

(** Two instances of one class are apart: neither path lies at or
    below the other. *)
Lemma instance_paths_apart (self other : InstanceDirectory.t) q :
  base_path other = base_path self → task_id other ≠ task_id self →
  ¬ path self `prefix_of` path other ++ q.
Proof.
  intros Hbase Hid. rewrite !path_eq, Hbase, <-app_assoc.
  intros Hpre%prefix_app_inv. simpl in Hpre.
  destruct Hpre as [q' [= Heq _]]. apply Hid. symmetry.
  by apply (inj pretty).
Qed.

(** X7.  A result that is saved can be loaded: in an instance directory
    that exists, whose result file is absent or a regular file,
    [save_result] succeeds and returns the time of the write; afterwards
    [load_result] decodes what was encoded, so with a codec that round-trips
    the object it returns the object, [get_timestamp] returns the same
    time, and no other path has changed. *)
Theorem save_result_then_load {T} (dump : Z → T → string) (load : string → result T)
    (now : Z) (obj : T) (self : InstanceDirectory.t) (fs : FS.t) :
  fs !! path self = Some Dir →
  (fs !! result_path self = None ∨
   ∃ content mtime, fs !! result_path self = Some (File content mtime)) →
  load (dump (compress_level self) obj) = Ok obj →
  ∃ fs',
    save_result dump now obj self fs = Ok (now, fs') ∧
    load_result load self fs' = Ok obj ∧
    get_timestamp self fs' = Ok now ∧
    (∀ p, p ≠ result_path self → fs' !! p = fs !! p).
Proof.
  intros Hdir Hold Hcodec. rewrite result_path_eq in Hold.
  exists (<[result_path self := File (dump (compress_level self) obj) now]> fs).
  assert (<[result_path self := File (dump (compress_level self) obj) now]> fs
          !! result_path self
          = Some (File (dump (compress_level self) obj) now)) as Hnew
    by apply lookup_insert_eq.
  destruct (file_reads _ _ _ _ Hnew) as (Hex & Hread & Hstat).
  split_and!.
  - unfold save_result, _get_timestamp. rewrite result_path_eq in *.
    rewrite write_text_file by done. simpl. by rewrite Hstat.
  - unfold load_result. rewrite Hread. done.
  - unfold get_timestamp, _get_timestamp. by rewrite Hex, Hstat.
  - intros p Hp. by rewrite lookup_insert_ne.
Qed.

Lemma save_result_then_load_witness :
  ∃ fs',
    save_result (λ _ (obj : string), "gz:" +:+ obj) 9 "new" demo_self demo_fs
      = Ok (9%Z, fs') ∧
    load_result (λ s, Ok (String.substring 3 (String.length s - 3) s)) demo_self fs'
      = Ok "new" ∧
    get_timestamp demo_self fs' = Ok 9%Z ∧
    (∀ p, p ≠ result_path demo_self → fs' !! p = demo_fs !! p).
Proof.
  apply (save_result_then_load (λ _ (obj : string), "gz:" +:+ obj)
           (λ s, Ok (String.substring 3 (String.length s - 3) s)) 9 "new"
           demo_self demo_fs).
  - by vm_compute.
  - right. exists "old", 5%Z. by vm_compute.
  - by vm_compute.
Defined.

(** X9.  [initialize] refuses an instance path that is not a
    directory: a regular file there raises NotADirectoryError, a symbolic
    link raises OSError (when it leads somewhere) or FileExistsError (when
    it dangles); with the path absent and the results directory missing it
    raises FileNotFoundError. *)
Theorem initialize_refuses (resolve : FS.t → Path → Path) (now : Z)
    (self : InstanceDirectory.t) (fs : FS.t) :
  (∀ content mtime, fs !! path self = Some (File content mtime) →
     initialize resolve now self fs = Raise NotADirectoryError) ∧
  (∀ target, fs !! path self = Some (Symlink target) →
     initialize resolve now self fs
     = Raise (if exists_ fs (path self) then OSError else FileExistsError)) ∧
  (fs !! path self = None → fs !! base_path self = None →
     initialize resolve now self fs = Raise FileNotFoundError).
Proof.
  split_and!.
  - intros content mtime Hp. unfold initialize.
    destruct (file_reads _ _ _ _ Hp) as (-> & _). unfold rmtree. by rewrite Hp.
  - intros target Hp. unfold initialize.
    destruct (exists_ fs (path self)).
    + unfold rmtree. by rewrite Hp.
    + simpl. unfold mkdir. by rewrite Hp.
  - intros Hp Hb. unfold initialize. rewrite exists_None by done. simpl.
    unfold mkdir, check_parent. rewrite Hp.
    by rewrite path_eq, parent_snoc, Hb.
Qed.

Lemma initialize_refuses_witness :
  initialize (λ _ p, p) 7 demo_self
    (<[["cache"; "results"; "1"] := File "" 1]> demo_fs)
  = Raise NotADirectoryError ∧
  initialize (λ _ p, p) 7 demo_self
    (<[["cache"; "results"; "1"] := Symlink ["cache"; "up"]]> demo_fs)
  = Raise OSError ∧
  initialize (λ _ p, p) 7 demo_self
    (<[["cache"; "results"; "1"] := Symlink ["nowhere"]]> demo_fs)
  = Raise FileExistsError ∧
  initialize (λ _ p, p) 7 demo_self {[ [] := Dir ]} = Raise FileNotFoundError.
Proof.
  split_and!.
  - by apply (initialize_refuses (λ _ p, p) 7 demo_self
                (<[["cache"; "results"; "1"] := File "" 1]> demo_fs)) with "" 1%Z.
  - destruct (initialize_refuses (λ _ p, p) 7 demo_self
                (<[["cache"; "results"; "1"] := Symlink ["cache"; "up"]]> demo_fs))
      as (_ & Hlink & _).
    rewrite (Hlink ["cache"; "up"]) by by vm_compute. by vm_compute.
  - destruct (initialize_refuses (λ _ p, p) 7 demo_self
                (<[["cache"; "results"; "1"] := Symlink ["nowhere"]]> demo_fs))
      as (_ & Hlink & _).
    rewrite (Hlink ["nowhere"]) by by vm_compute. by vm_compute.
  - by apply (initialize_refuses (λ _ p, p) 7 demo_self {[ [] := Dir ]}).
Defined.

Section wiped.
Variable resolve : FS.t → Path → Path.
Variables (now : Z) (self : InstanceDirectory.t) (fs : FS.t).
Hypothesis Hwf : wf fs.
Hypothesis Hbase : fs !! base_path self = Some Dir.
Hypothesis Hpath : fs !! path self = None ∨ fs !! path self = Some Dir.
Hypothesis Hnames :
  map_Forall (λ name _, is_component name = true) (dependencies self).
Hypothesis Hresolve :
  ∀ name target fsa fsb,
    dependencies self !! name = Some target →
    agree_outside (path self) fsa fsb →
    resolve fsa target = resolve fsb target.

(** X8.  [delete()] forgets the result and empties the scratch
    directory: under the conditions in which [initialize] succeeds,
    [delete] succeeds, after it [get_timestamp] raises RuntimeError and
    [load_result] raises FileNotFoundError, and nothing is below data/. *)
Theorem delete_forgets_result {T} (load : string → result T) :
  ∃ fs',
    delete resolve now self fs = Ok fs' ∧
    get_timestamp self fs' = Raise RuntimeError ∧
    load_result load self fs' = Raise FileNotFoundError ∧
    (∀ q, q ≠ [] → fs' !! (data_dir self ++ q) = None).
Proof using All.
  destruct (initialize_graft resolve now self fs Hwf Hbase Hpath Hnames Hresolve)
    as (fs1 & u & Hrun & Hbelow & _ & _ & _ & _ & _ & _ & _ & Honly).
  assert (∀ q, graft (path self) u fs1 !! (path self ++ q) = u !! q) as Hlk.
  { intros q. rewrite lookup_graft_below, Hbelow. by destruct (u !! q). }
  assert (∀ q, q ∉ [[]; ["args.json"]; ["data"]; ["deps"]] →
               (∀ name, q ≠ ["deps"; name]) → u !! q = None) as Hnone.
  { intros q Hq1 Hq2. destruct (u !! q) as [n|] eqn:Hn; [|done].
    destruct (Honly q) as [Hin|(name & -> & _)]; [by rewrite Hn|done|].
    by destruct (Hq2 name). }
  exists (graft (path self) u fs1). split; [done|].
  assert (graft (path self) u fs1 !! result_path self = None) as Hres.
  { rewrite result_path_eq, Hlk. apply Hnone; [|done].
    rewrite !elem_of_cons, elem_of_nil. by intros [?|[?|[?|[?|[]]]]]. }
  destruct (absent_reads _ _ Hres) as [Hex Hread].
  split_and!.
  - unfold get_timestamp. by rewrite Hex.
  - unfold load_result. by rewrite Hread.
  - intros q Hq. rewrite data_dir_eq, <-app_assoc, Hlk. apply Hnone.
    + rewrite !elem_of_cons, elem_of_nil. simpl.
      intros [?|[?|[[= ?]|[?|[]]]]]; done.
    + intros name. simpl. done.
Qed.

(** X10.  Initializing one instance leaves the other instances of the
    class alone: the directory of an instance with another id, and all
    below it, is after [initialize] what it was before. *)
Theorem initialize_spares_other_instances (other : InstanceDirectory.t) :
  base_path other = base_path self →
  task_id other ≠ task_id self →
  ∃ fs',
    initialize resolve now self fs = Ok fs' ∧
    ∀ q, fs' !! (path other ++ q) = fs !! (path other ++ q).
Proof using All.
  intros Hb Hid.
  destruct (initialize_graft resolve now self fs Hwf Hbase Hpath Hnames Hresolve)
    as (fs1 & u & Hrun & _ & Hagree & _).
  exists (graft (path self) u fs1). split; [done|].
  intros q. rewrite lookup_graft_outside by by apply instance_paths_apart.
  apply Hagree. by apply instance_paths_apart.
Qed.

End wiped.

Lemma delete_forgets_result_witness :
  ∃ fs',
    delete (λ _ p, p) 7 demo_self demo_fs = Ok fs' ∧
    get_timestamp demo_self fs' = Raise RuntimeError ∧
    load_result (λ s : string, Ok s) demo_self fs' = Raise FileNotFoundError ∧
    (∀ q, q ≠ [] → fs' !! (data_dir demo_self ++ q) = None).
Proof.
  apply (delete_forgets_result (λ _ p, p) 7 demo_self demo_fs).
  - apply (bool_decide_unpack (wf demo_fs)). by vm_compute.
  - by vm_compute.
  - right. by vm_compute.
  - apply (bool_decide_unpack (map_Forall _ _)). by vm_compute.
  - done.
Defined.

Lemma initialize_spares_other_instances_witness :
  ∃ fs',
    initialize (λ _ p, p) 7 (InstanceDirectory.mk ["cache"; "results"] 2 "{}" ∅ 0) demo_fs
      = Ok fs' ∧
    ∀ q, fs' !! (path demo_self ++ q) = demo_fs !! (path demo_self ++ q).
Proof.
  apply (initialize_spares_other_instances (λ _ p, p) 7
           (InstanceDirectory.mk ["cache"; "results"] 2 "{}" ∅ 0) demo_fs).
  - apply (bool_decide_unpack (wf demo_fs)). by vm_compute.
  - by vm_compute.
  - left. by vm_compute.
  - apply (bool_decide_unpack (map_Forall _ _)). by vm_compute.
  - intros name target fsa fsb Hname. cbn [dependencies] in Hname.
    by rewrite lookup_empty in Hname.
  - reflexivity.
  - by vm_compute.
Defined.

End InstanceDirectoryMore.

Module DatabaseMore.
Import FS PathSpec FSSpec FSMore Database DatabaseSpec Scenario.

(** [clear] in closed form. *)
Lemma clear_closed_form (self : Database.t) (id_table : IdTable.t) (fs : FS.t) :
  wf fs →
  fs !! base_path self = Some Dir →
  fs !! results_directory self = None ∨ fs !! results_directory self = Some Dir →
  ∃ fs1,
    clear self (id_table, fs)
    = Ok (IdTable.clear id_table, <[results_directory self := Dir]> fs1) ∧
    (∀ q, fs1 !! (results_directory self ++ q) = None) ∧
    fs1 !! base_path self = Some Dir.
Proof.
  intros Hwf Hbase Hres.
  destruct (clear_path fs (results_directory self) Hwf Hres)
    as (fs1 & Hstep & Hbelow & Hagree).
  assert (fs1 !! base_path self = Some Dir) as Hbase1.
  { rewrite <-Hbase. apply Hagree.
    rewrite results_directory_eq. apply not_prefix_snoc. }
  exists fs1. split; [|done].
  unfold clear. simpl. rewrite Hstep. simpl.
  unfold mkdir, check_parent.
  specialize (Hbelow []) as HR. rewrite app_nil_r in HR. rewrite HR.
  rewrite results_directory_eq at 1. by rewrite parent_snoc, Hbase1.
Qed.

(** X13.  Clearing twice is clearing once: where [clear()] succeeds, a
    second [clear()] right after it succeeds too and returns the state the
    first one left. *)
Theorem clear_twice (self : Database.t) (id_table : IdTable.t) (fs : FS.t) :
  wf fs →
  fs !! base_path self = Some Dir →
  fs !! results_directory self = None ∨ fs !! results_directory self = Some Dir →
  ∃ st', clear self (id_table, fs) = Ok st' ∧ clear self st' = Ok st'.
Proof.
  intros Hwf Hbase Hres.
  destruct (clear_closed_form self id_table fs Hwf Hbase Hres)
    as (fs1 & Hrun & Hbelow & Hbase1).
  eexists. split; [exact Hrun|].
  unfold clear. cbn [fst snd].
  rewrite exists_Dir by apply lookup_insert_eq.
  unfold rmtree. rewrite lookup_insert_eq. simpl.
  assert (filter (λ kv : Path * node, ¬ results_directory self `prefix_of` kv.1)
            (<[results_directory self := Dir]> fs1) = fs1) as ->.
  { apply map_eq. intros p.
    destruct (decide (results_directory self `prefix_of` p)) as [[q ->]|Hp].
    - rewrite Hbelow. apply map_lookup_filter_None. right.
      intros n _ Hn. apply Hn. simpl. by exists q.
    - destruct (fs1 !! p) as [n|] eqn:Hn.
      + apply map_lookup_filter_Some. split; [|done].
        rewrite lookup_insert_ne; [done|]. by intros <-.
      + apply map_lookup_filter_None. left.
        rewrite lookup_insert_ne; [done|]. by intros <-. }
  unfold mkdir, check_parent.
  specialize (Hbelow []) as HR. rewrite app_nil_r in HR. rewrite HR.
  rewrite results_directory_eq at 1. by rewrite parent_snoc, Hbase1.
Qed.

Lemma clear_twice_witness :
  ∃ st', clear demo_db (IdTable.__init__ {[ "{}" := 0 ]}, demo_db_fs) = Ok st' ∧
         clear demo_db st' = Ok st'.
Proof.
  apply (clear_twice demo_db (IdTable.__init__ {[ "{}" := 0 ]}) demo_db_fs).
  - apply (bool_decide_unpack (wf demo_db_fs)). by vm_compute.
  - by vm_compute.
  - right. by vm_compute.
Defined.

(** X12.  [__post_init__] makes sure results/ is a directory and does no
    more: in a class directory that exists it creates results/ when it is
    absent and leaves the file system as it is when results/ is a
    directory already, so doing it again changes nothing; a regular file
    named results raises FileExistsError. *)
Theorem post_init_ensures_results (self : Database.t) (fs : FS.t) :
  fs !! base_path self = Some Dir →
  (fs !! results_directory self = None →
     __post_init__ self fs = Ok (<[results_directory self := Dir]> fs) ∧
     __post_init__ self (<[results_directory self := Dir]> fs)
     = Ok (<[results_directory self := Dir]> fs)) ∧
  (fs !! results_directory self = Some Dir → __post_init__ self fs = Ok fs) ∧
  (∀ content mtime, fs !! results_directory self = Some (File content mtime) →
     __post_init__ self fs = Raise FileExistsError).
Proof.
  intros Hbase.
  assert (∀ fs', fs' !! results_directory self = Some Dir →
                 __post_init__ self fs' = Ok fs') as Hdir.
  { intros fs' HR. unfold __post_init__, mkdir_exist_ok, mkdir. rewrite HR.
    rewrite follow_not_link by (intros ?; congruence). by rewrite HR. }
  split_and!.
  - intros HR. split; [|apply Hdir, lookup_insert_eq].
    unfold __post_init__, mkdir_exist_ok, mkdir, check_parent. rewrite HR.
    rewrite results_directory_eq at 1. by rewrite parent_snoc, Hbase.
  - apply Hdir.
  - intros content mtime HR.
    unfold __post_init__, mkdir_exist_ok, mkdir. rewrite HR.
    rewrite follow_not_link by (intros ?; congruence). by rewrite HR.
Qed.

Lemma post_init_ensures_results_witness :
  __post_init__ demo_db demo_db_fs = Ok demo_db_fs.
Proof.
  apply (post_init_ensures_results demo_db demo_db_fs); by vm_compute.
Defined.

(** Text read back never holds a carriage return, and text without
    one reads back as it is. *)
Lemma universal_newlines_no_cr after_cr s :
  contains_char "013"%char (universal_newlines after_cr s) = false.
Proof.
  revert after_cr. induction s as [|c s IH]; intros after_cr; [done|].
  cbn [universal_newlines].
  destruct (Ascii.eqb_spec c "013"%char) as [->|Hcr].
  - cbn [contains_char]. by rewrite IH.
  - destruct (Ascii.eqb c "010"%char && after_cr); [apply IH|].
    cbn [contains_char]. rewrite IH.
    by destruct (Ascii.eqb_spec c "013"%char).
Qed.

Lemma universal_newlines_id s :
  contains_char "013"%char s = false → universal_newlines false s = s.
Proof.
  induction s as [|c s IH]; [done|]. cbn [contains_char universal_newlines].
  intros [Hc Hs]%orb_false_iff. rewrite Hc, andb_false_r. by rewrite IH.
Qed.

Lemma read_text_mode_file fs p content mtime :
  fs !! p = Some (File content mtime) →
  read_text_mode fs p = Ok (universal_newlines false content).
Proof.
  intros Hp. unfold read_text_mode.
  by destruct (file_reads _ _ _ _ Hp) as (_ & -> & _).
Qed.

(** The two ways a call can go. *)
Lemma update_source_same (later : Z) (self : Database.t) (source : string)
    (fs : FS.t) content mtime :
  fs !! source_path self = Some (File content mtime) →
  universal_newlines false content = source →
  update_source_if_necessary later self source fs = Ok (mtime, fs).
Proof.
  intros Hsrc Heq.
  destruct (file_reads _ _ _ _ Hsrc) as (Hex & _ & Hstat).
  unfold update_source_if_necessary, load_source_timestamp, _get_timestamp.
  rewrite Hex, (read_text_mode_file _ _ _ _ Hsrc), Heq. simpl.
  rewrite bool_decide_eq_false_2 by (by intros []). simpl. by rewrite Hstat.
Qed.

Lemma update_source_differs (now : Z) (self : Database.t) (source : string)
    (fs : FS.t) :
  fs !! base_path self = Some Dir →
  (fs !! source_path self = None ∨
   ∃ content mtime, fs !! source_path self = Some (File content mtime)
                    ∧ universal_newlines false content ≠ source) →
  update_source_if_necessary now self source fs
  = Ok (now, <[source_path self := File source now]> fs).
Proof.
  intros Hbase Hold.
  assert (<[source_path self := File source now]> fs !! source_path self
          = Some (File source now)) as Hafter by apply lookup_insert_eq.
  destruct (file_reads _ _ _ _ Hafter) as (_ & _ & Hstat).
  unfold update_source_if_necessary, load_source_timestamp, _get_timestamp.
  destruct Hold as [Hsrc|(content & mtime & Hsrc & Hne)].
  - destruct (absent_reads _ _ Hsrc) as [-> _]. simpl.
    rewrite source_path_eq in *. rewrite write_text_file by auto.
    simpl. by rewrite Hstat.
  - destruct (file_reads _ _ _ _ Hsrc) as (-> & _ & _).
    rewrite (read_text_mode_file _ _ _ _ Hsrc). simpl.
    rewrite bool_decide_eq_true_2 by congruence.
    rewrite source_path_eq in *. rewrite write_text_file by eauto.
    simpl. by rewrite Hstat.
Qed.

(** X11.  [update_source_if_necessary] compares the token with
    source.txt as read in text mode, and writes only when they differ: in
    a class directory that exists, a source.txt that reads as the token is
    left alone and its time is returned; a missing source.txt, or one that
    reads as something else, is written with the token and the time of the
    write is returned.  For a token without a carriage return the file
    reads as the token afterwards, and a second call at any later time
    returns the same time and changes nothing.  A token with a carriage
    return never reads back as itself, so every call writes the file
    again. *)
Theorem update_source_writes_on_change (now : Z) (self : Database.t)
    (source : string) (fs : FS.t) :
  fs !! base_path self = Some Dir →
  (∀ content mtime,
     fs !! source_path self = Some (File content mtime) →
     universal_newlines false content = source →
     update_source_if_necessary now self source fs = Ok (mtime, fs)) ∧
  ((fs !! source_path self = None ∨
    ∃ content mtime, fs !! source_path self = Some (File content mtime)
                     ∧ universal_newlines false content ≠ source) →
     update_source_if_necessary now self source fs
     = Ok (now, <[source_path self := File source now]> fs)) ∧
  (contains_char "013"%char source = false →
   fs !! source_path self = None ∨
     (∃ content mtime, fs !! source_path self = Some (File content mtime)) →
   ∃ stamp fs' content,
     update_source_if_necessary now self source fs = Ok (stamp, fs') ∧
     fs' !! source_path self = Some (File content stamp) ∧
     read_text_mode fs' (source_path self) = Ok source ∧
     ∀ later, update_source_if_necessary later self source fs' = Ok (stamp, fs')) ∧
  (contains_char "013"%char source = true →
   fs !! source_path self = None ∨
     (∃ content mtime, fs !! source_path self = Some (File content mtime)) →
   update_source_if_necessary now self source fs
   = Ok (now, <[source_path self := File source now]> fs)).
Proof.
  intros Hbase. split_and!.
  - intros content mtime Hsrc Heq. by eapply update_source_same.
  - by apply update_source_differs.
  - intros Hcr Hold.
    assert (∀ stamp fs' content,
              fs' !! source_path self = Some (File content stamp) →
              universal_newlines false content = source →
              read_text_mode fs' (source_path self) = Ok source ∧
              ∀ later, update_source_if_necessary later self source fs'
                       = Ok (stamp, fs')) as Hthen.
    { intros stamp fs' content Hsrc' Heq. split.
      - by rewrite (read_text_mode_file _ _ _ _ Hsrc'), Heq.
      - intros later. by eapply update_source_same. }
    assert (∃ stamp fs' content,
              update_source_if_necessary now self source fs = Ok (stamp, fs') ∧
              fs' !! source_path self = Some (File content stamp) ∧
              universal_newlines false content = source)
      as (stamp & fs' & content & Hrun & Hsrc' & Heq).
    { destruct Hold as [Hsrc|(content & mtime & Hsrc)].
      - eexists _, _, source. split; [apply update_source_differs; auto|].
        split; [apply lookup_insert_eq|by apply universal_newlines_id].
      - destruct (decide (universal_newlines false content = source)) as [Heq|Hne].
        + exists mtime, fs, content. split; [by eapply update_source_same|done].
        + eexists _, _, source. split; [apply update_source_differs; eauto|].
          split; [apply lookup_insert_eq|by apply universal_newlines_id]. }
    exists stamp, fs', content. split; [done|]. split; [done|]. by eapply Hthen.
  - intros Hcr Hold. apply update_source_differs; [done|].
    destruct Hold as [Hsrc|(content & mtime & Hsrc)]; [by left|].
    right. exists content, mtime. split; [done|]. intros <-.
    by rewrite universal_newlines_no_cr in Hcr.
Qed.

Lemma update_source_writes_on_change_witness :
  (update_source_if_necessary 9 demo_db "v2" demo_db_fs
   = Ok (9%Z, <[source_path demo_db := File "v2" 9]> demo_db_fs)) ∧
  (∃ stamp fs' content,
     update_source_if_necessary 9 demo_db "v1" demo_db_fs = Ok (stamp, fs') ∧
     fs' !! source_path demo_db = Some (File content stamp) ∧
     read_text_mode fs' (source_path demo_db) = Ok "v1" ∧
     ∀ later, update_source_if_necessary later demo_db "v1" fs' = Ok (stamp, fs')) ∧
  (update_source_if_necessary 9 demo_db (String "013"%char "v1") demo_db_fs
   = Ok (9%Z, <[source_path demo_db := File (String "013"%char "v1") 9]> demo_db_fs)).
Proof.
  split_and!.
  - destruct (update_source_writes_on_change 9 demo_db "v2" demo_db_fs)
      as (_ & Hdiffers & _); [by vm_compute|].
    apply Hdiffers. right. exists "v1", 3%Z. split; by vm_compute.
  - destruct (update_source_writes_on_change 9 demo_db "v1" demo_db_fs)
      as (_ & _ & Hplain & _); [by vm_compute|].
    apply Hplain; [by vm_compute|].
    right. exists "v1", 3%Z. by vm_compute.
  - destruct (update_source_writes_on_change 9 demo_db (String "013"%char "v1")
                demo_db_fs) as (_ & _ & _ & Hcr); [by vm_compute|].
    apply Hcr; [by vm_compute|].
    right. exists "v1", 3%Z. by vm_compute.
Defined.

Section resolve_once.
Variable resolve : FS.t → Path → Path.
Variables (now : Z) (self : Database.t) (key : string) (deps : gmap string Path).
Variables (id_table : IdTable.t) (fs : FS.t).

(** The instance directory a first sighting of [key] gets. *)
#[local] Abbreviation dir :=
  (InstanceDirectory.mk (results_directory self)
     (size (IdTable.table id_table)) key deps (compress_level self)).

Hypothesis Hconsistent : IdTable.consistent id_table.
Hypothesis Hkey : IdTable.table id_table !! key = None.
Hypothesis Hwf : wf fs.
Hypothesis Hresults : fs !! results_directory self = Some Dir.
Hypothesis Hfree : fs !! InstanceDirectory.path dir = None.
Hypothesis Hnames : map_Forall (λ name _, is_component name = true) deps.
Hypothesis Hresolve :
  ∀ name target fsa fsb,
    deps !! name = Some target →
    agree_outside (InstanceDirectory.path dir) fsa fsb →
    resolve fsa target = resolve fsb target.

(** X14.  Resolving a new fingerprint and resolving it again.  With an
    id table whose cache agrees with its store and does not know the key,
    a results directory that exists and no entry yet at the path of the
    next id, [get_instance_dir] numbers the key with the size of the table,
    records it, and sets up results/<id>/ with args.json holding the key,
    changing nothing outside that directory.  Calling it again for the
    same key, at any time and with any dependency map, returns the same id
    and path and leaves the id table and the file system as they are. *)
Theorem get_instance_dir_first_then_again :
  ∃ id_table' fs',
    get_instance_dir resolve now self key deps (id_table, fs)
      = Ok (dir, (id_table', fs')) ∧
    IdTable.table id_table' !! key = Some (size (IdTable.table id_table)) ∧
    fs' !! InstanceDirectory.args_path dir = Some (File key now) ∧
    agree_outside (InstanceDirectory.path dir) fs' fs ∧
    ∀ later deps',
      get_instance_dir resolve later self key deps' (id_table', fs')
      = Ok (InstanceDirectory.mk (results_directory self)
              (size (IdTable.table id_table)) key deps' (compress_level self),
            (id_table', fs')).
Proof using All.
  assert (IdTable.cache id_table !! key = None) as Hcache.
  { destruct (IdTable.cache id_table !! key) as [i|] eqn:Hi; [|done].
    pose proof (lookup_weaken _ _ _ _ Hi (IdTable.cache_sub _ Hconsistent)).
    congruence. }
  destruct (InstanceDirectorySpec.initialize_graft resolve now dir fs)
    as (fs1 & u & Hrun & Hbelow & Hagree & Hroot & Hargs & _); auto.
  assert (∀ q, graft (InstanceDirectory.path dir) u fs1
               !! (InstanceDirectory.path dir ++ q) = u !! q) as Hlk.
  { intros q. rewrite lookup_graft_below, Hbelow. by destruct (u !! q). }
  assert (graft (InstanceDirectory.path dir) u fs1 !! InstanceDirectory.path dir
          = Some Dir) as Hdir.
  { specialize (Hlk []). rewrite app_nil_r in Hlk. by rewrite Hlk. }
  eexists _, (graft (InstanceDirectory.path dir) u fs1). split_and!.
  - unfold get_instance_dir, IdTable.get. cbn [fst snd].
    rewrite Hcache, Hkey. unfold InstanceDirectory.__init__.
    rewrite exists_None by done. simpl. rewrite Hrun. simpl. done.
  - simpl. by rewrite lookup_insert_eq.
  - by rewrite InstanceDirectorySpec.args_path_eq, Hlk.
  - eapply agree_outside_trans; [apply graft_agree_outside|done].
  - intros later deps'.
    unfold get_instance_dir, IdTable.get. cbn [fst snd IdTable.cache].
    rewrite lookup_insert_eq. unfold InstanceDirectory.__init__.
    assert (InstanceDirectory.path
              (InstanceDirectory.mk (results_directory self)
                 (size (IdTable.table id_table)) key deps' (compress_level self))
            = InstanceDirectory.path dir) as -> by done.
    rewrite exists_Dir by done. done.
Qed.

End resolve_once.

Lemma get_instance_dir_first_then_again_witness :
  ∃ id_table' fs',
    get_instance_dir (λ _ p, p) 9 demo_db "{x}" ∅
      (IdTable.__init__ {[ "{}" := 0 ]}, demo_db_fs)
      = Ok (InstanceDirectory.mk (results_directory demo_db)
              (size (IdTable.table (IdTable.__init__ {[ "{}" := 0 ]}))) "{x}" ∅
              (compress_level demo_db),
            (id_table', fs')) ∧
    IdTable.table id_table' !! "{x}"
      = Some (size (IdTable.table (IdTable.__init__ {[ "{}" := 0 ]}))) ∧
    fs' !! InstanceDirectory.args_path
             (InstanceDirectory.mk (results_directory demo_db)
                (size (IdTable.table (IdTable.__init__ {[ "{}" := 0 ]}))) "{x}" ∅
                (compress_level demo_db))
      = Some (File "{x}" 9) ∧
    agree_outside
      (InstanceDirectory.path
         (InstanceDirectory.mk (results_directory demo_db)
            (size (IdTable.table (IdTable.__init__ {[ "{}" := 0 ]}))) "{x}" ∅
            (compress_level demo_db)))
      fs' demo_db_fs ∧
    ∀ later deps',
      get_instance_dir (λ _ p, p) later demo_db "{x}" deps' (id_table', fs')
      = Ok (InstanceDirectory.mk (results_directory demo_db)
              (size (IdTable.table (IdTable.__init__ {[ "{}" := 0 ]}))) "{x}" deps'
              (compress_level demo_db),
            (id_table', fs')).
Proof.
  apply (get_instance_dir_first_then_again (λ _ p, p) 9 demo_db "{x}" ∅
           (IdTable.__init__ {[ "{}" := 0 ]}) demo_db_fs).
  - apply IdTableMore.init_store_consistent.
    + intros k i [<- <-]%lookup_singleton_Some. by vm_compute.
    + intros k1 k2 i [<- <-]%lookup_singleton_Some [<- _]%lookup_singleton_Some.
      done.
  - by vm_compute.
  - apply (bool_decide_unpack (wf demo_db_fs)). by vm_compute.
  - by vm_compute.
  - by vm_compute.
  - apply (bool_decide_unpack (map_Forall _ _)). by vm_compute.
  - done.
Defined.

End DatabaseMore.
